(** * AlumniVerification: a shallow embedding of the credential ledger

    The contract [BlockChain/src/AlumniVerification.sol] is embedded as pure
    functions over an explicit storage record.  Mappings are finite maps read
    with the EVM's zero default, [require] is a failure of a small
    state-and-failure monad, and an external call rolls the storage back when
    its body fails, as the EVM does on [revert]. *)

From Stdlib Require Import NArith List Ascii String Lia.
From stdpp Require Import base option gmap strings list.
Import ListNotations.

Local Open Scope N_scope.

(** * Part I: the embedding *)

(** ** The EVM primitive [keccak256]

    Keccak-f[1600] over 25 lanes of 64 bits, rate 1088 bits (136 bytes),
    multi-rate padding with domain byte 0x01, 256 bits of output. *)
Module Keccak.

Definition lane_bits : N := 64.
Definition lane_mod : N := 2 ^ 64.

Definition rotl (w n : N) : N :=
  N.lor (N.shiftl w n mod lane_mod) (N.shiftr w (lane_bits - n)).

Definition lane (s : list N) (i : nat) : N := nth i s 0.

Definition round_constants : list N :=
  [ 0x0000000000000001; 0x0000000000008082; 0x800000000000808A;
    0x8000000080008000; 0x000000000000808B; 0x0000000080000001;
    0x8000000080008081; 0x8000000000008009; 0x000000000000008A;
    0x0000000000000088; 0x0000000080008009; 0x000000008000000A;
    0x000000008000808B; 0x800000000000008B; 0x8000000000008089;
    0x8000000000008003; 0x8000000000008002; 0x8000000000000080;
    0x000000000000800A; 0x800000008000000A; 0x8000000080008081;
    0x8000000000008080; 0x0000000080000001; 0x8000000080008008 ].

(** Rotation offsets, at index [x + 5 * y]. *)
Definition rotation_offsets : list N :=
  [  0;  1; 62; 28; 27;
    36; 44;  6; 55; 20;
     3; 10; 43; 25; 39;
    41; 45; 15; 21;  8;
    18;  2; 61; 56; 14 ].

Definition positions : list nat := seq 0 25.

Definition theta (s : list N) : list N :=
  let c := fun x : nat =>
    N.lxor (lane s x)
      (N.lxor (lane s (x + 5))
        (N.lxor (lane s (x + 10))
          (N.lxor (lane s (x + 15)) (lane s (x + 20))))) in
  let d := fun x : nat =>
    N.lxor (c ((x + 4) mod 5)%nat) (rotl (c ((x + 1) mod 5)%nat) 1) in
  map (fun i : nat => N.lxor (lane s i) (d (i mod 5)%nat)) positions.

(** [B[y, 2x + 3y] = rotl A[x, y] r[x, y]], read from the destination. *)
Definition rho_pi (s : list N) : list N :=
  map (fun i : nat =>
         let X := (i mod 5)%nat in
         let Y := (i / 5)%nat in
         let src := (((X + 3 * Y) mod 5) + 5 * X)%nat in
         rotl (lane s src) (nth src rotation_offsets 0))
      positions.

Definition chi (s : list N) : list N :=
  map (fun i : nat =>
         let X := (i mod 5)%nat in
         let row := (5 * (i / 5))%nat in
         N.lxor (lane s i)
           (N.ldiff (lane s (row + (X + 2) mod 5)%nat)
                    (lane s (row + (X + 1) mod 5)%nat)))
      positions.

Definition iota (rc : N) (s : list N) : list N :=
  match s with
  | [] => []
  | a :: rest => N.lxor a rc :: rest
  end.

Definition round (s : list N) (rc : N) : list N :=
  iota rc (chi (rho_pi (theta s))).

Definition keccak_f (s : list N) : list N :=
  fold_left round round_constants s.

Definition rate_bytes : nat := 136.

(** Multi-rate padding: 0x01, zeros, and 0x80 or-ed into the last byte. *)
Definition pad (len : nat) : list N :=
  let q := (rate_bytes - len mod rate_bytes)%nat in
  match q with
  | 1%nat => [0x81]
  | _ => 0x01 :: repeat 0 (q - 2) ++ [0x80]
  end.

Fixpoint lane_of_bytes (bs : list N) : N :=
  match bs with
  | [] => 0
  | b :: rest => b + 256 * lane_of_bytes rest
  end.

(** Cuts a list of bytes in lanes of eight bytes, little-endian. *)
Fixpoint lanes_of_bytes (fuel : nat) (bs : list N) : list N :=
  match fuel with
  | O => []
  | S fuel' =>
      match bs with
      | [] => []
      | _ => lane_of_bytes (firstn 8 bs) :: lanes_of_bytes fuel' (skipn 8 bs)
      end
  end.

Definition xor_block (s block : list N) : list N :=
  map (fun i : nat => N.lxor (lane s i) (lane block i)) positions.

Fixpoint absorb (fuel : nat) (s : list N) (bs : list N) : list N :=
  match fuel with
  | O => s
  | S fuel' =>
      match bs with
      | [] => s
      | _ =>
          let block := lanes_of_bytes 17 (firstn rate_bytes bs) in
          absorb fuel' (keccak_f (xor_block s block)) (skipn rate_bytes bs)
      end
  end.

Definition byte_of_lane (w : N) (k : N) : N :=
  N.land (N.shiftr w (8 * k)) 255.

Definition lane_bytes (w : N) : list N :=
  map (byte_of_lane w) [0; 1; 2; 3; 4; 5; 6; 7].

(** The first 32 bytes of the state: lanes 0 to 3, little-endian each. *)
Definition squeeze (s : list N) : list N :=
  flat_map (fun i : nat => lane_bytes (lane s i)) [0; 1; 2; 3]%nat.

(** A [bytes32] is read as the big-endian number of its 32 bytes. *)
Definition bytes32_of_bytes (bs : list N) : N :=
  fold_left (fun acc b => 256 * acc + b) bs 0.

Definition digest (msg : list N) : N :=
  let padded := msg ++ pad (length msg) in
  bytes32_of_bytes
    (squeeze (absorb (S (length msg)) (repeat 0 25) padded)).

End Keccak.

Definition bytes_of_string (s : string) : list N :=
  map N_of_ascii (list_ascii_of_string s).

Definition keccak256 (s : string) : N :=
  Keccak.digest (bytes_of_string s).

(** ** Solidity value types

    [address] is a 160-bit number and [address(0)] is [0]; [uint256] and
    [bytes32] are 256-bit numbers and [bytes32(0)] is [0]; a [string] is its
    sequence of bytes. *)
Abbreviation address := N (only parsing).
Abbreviation uint256 := N (only parsing).
Abbreviation bytes32 := N (only parsing).

Definition MAX_UINT256 : N := 2 ^ 256 - 1.

(** [abi.encodePacked] of strings: their bytes one after the other, with
    neither length nor padding nor separator. *)
Fixpoint abi_encodePacked (args : list string) : string :=
  match args with
  | [] => EmptyString
  | a :: rest => String.append a (abi_encodePacked rest)
  end.

(** ** State variables *)

Record AlumniRecord : Type := mkAlumniRecord {
  certId : string;
  dataHash : bytes32;
  issuer : address;
  timestamp : uint256;
  blockNumber : uint256;
  exists_ : bool;
  issuerName : string
}.

(** What a mapping holds at a key that was never written. *)
Definition zero_record : AlumniRecord :=
  {| certId := ""; dataHash := 0; issuer := 0; timestamp := 0;
     blockNumber := 0; exists_ := false; issuerName := "" |}.

Record Storage : Type := mkStorage {
  owner : address;
  authorizedIssuers : gmap N bool;
  issuerNames : gmap N string;
  records : gmap string AlumniRecord;
  certificateIds : list string;
  totalRecords : uint256
}.

Definition empty_storage : Storage :=
  {| owner := 0; authorizedIssuers := ∅; issuerNames := ∅; records := ∅;
     certificateIds := []; totalRecords := 0 |}.

(** Reads of the mappings, with the zero default. *)
Definition authorizedIssuers_at (s : Storage) (a : address) : bool :=
  default false (authorizedIssuers s !! a).

Definition issuerNames_at (s : Storage) (a : address) : string :=
  default EmptyString (issuerNames s !! a).

Definition records_at (s : Storage) (c : string) : AlumniRecord :=
  default zero_record (records s !! c).

(** Writes of one state variable. *)
Definition set_owner (a : address) (s : Storage) : Storage :=
  {| owner := a; authorizedIssuers := authorizedIssuers s;
     issuerNames := issuerNames s; records := records s;
     certificateIds := certificateIds s; totalRecords := totalRecords s |}.

Definition set_authorizedIssuer (a : address) (b : bool) (s : Storage) : Storage :=
  {| owner := owner s; authorizedIssuers := <[a := b]> (authorizedIssuers s);
     issuerNames := issuerNames s; records := records s;
     certificateIds := certificateIds s; totalRecords := totalRecords s |}.

Definition set_issuerName (a : address) (n : string) (s : Storage) : Storage :=
  {| owner := owner s; authorizedIssuers := authorizedIssuers s;
     issuerNames := <[a := n]> (issuerNames s); records := records s;
     certificateIds := certificateIds s; totalRecords := totalRecords s |}.

Definition set_record (c : string) (r : AlumniRecord) (s : Storage) : Storage :=
  {| owner := owner s; authorizedIssuers := authorizedIssuers s;
     issuerNames := issuerNames s; records := <[c := r]> (records s);
     certificateIds := certificateIds s; totalRecords := totalRecords s |}.

Definition push_certificateId (c : string) (s : Storage) : Storage :=
  {| owner := owner s; authorizedIssuers := authorizedIssuers s;
     issuerNames := issuerNames s; records := records s;
     certificateIds := certificateIds s ++ [c]; totalRecords := totalRecords s |}.

Definition set_totalRecords (n : uint256) (s : Storage) : Storage :=
  {| owner := owner s; authorizedIssuers := authorizedIssuers s;
     issuerNames := issuerNames s; records := records s;
     certificateIds := certificateIds s; totalRecords := n |}.

(** ** Events *)

Inductive Event : Type :=
| AlumniRecordAdded (certId : string) (dataHash : bytes32) (issuer : address)
    (issuerName : string) (timestamp blockNumber : uint256)
| IssuerAuthorized (issuer : address) (name : string)
| IssuerRevoked (issuer : address)
| RecordVerified (certId : string) (isValid : bool).

(** ** The execution environment of one call *)

Record Env : Type := mkEnv {
  msg_sender : address;
  block_timestamp : uint256;
  block_number : uint256
}.

(** ** Failures and the monad of a function body

    A body threads the storage, collects the events it emits, and stops at
    the first failing [require] or arithmetic panic.  [Failed] keeps the
    storage as the body left it, so that what a body wrote before failing
    stays visible to the proofs; the rollback is [call]'s. *)

Inductive Failure : Type :=
| Revert (reason : string)
| Panic (code : N).

Inductive Outcome (A : Type) : Type :=
| Done (a : A) (s : Storage) (log : list Event)
| Failed (f : Failure) (s : Storage).

Arguments Done {A} a s log.
Arguments Failed {A} f s.

Definition M (A : Type) : Type := Storage -> Outcome A.

Definition ret {A : Type} (a : A) : M A := fun s => Done a s [].

Definition bind {A B : Type} (m : M A) (k : A -> M B) : M B := fun s =>
  match m s with
  | Done a s1 log1 =>
      match k a s1 with
      | Done b s2 log2 => Done b s2 (log1 ++ log2)
      | Failed f s2 => Failed f s2
      end
  | Failed f s1 => Failed f s1
  end.

Notation "'let*' x ':=' m 'in' k" := (bind m (fun x => k))
  (at level 10, x name, m at level 100, k at level 200, only parsing).
Notation "'run*' m 'in' k" := (bind m (fun _ => k))
  (at level 10, m at level 100, k at level 200, only parsing).

Definition sload {A : Type} (read : Storage -> A) : M A :=
  fun s => Done (read s) s [].

Definition sstore (write : Storage -> Storage) : M unit :=
  fun s => Done tt (write s) [].

Definition require (cond : bool) (reason : string) : M unit :=
  fun s => if cond then Done tt s [] else Failed (Revert reason) s.

Definition panic {A : Type} (code : N) : M A :=
  fun s => Failed (Panic code) s.

Definition emit (ev : Event) : M unit :=
  fun s => Done tt s [ev].

(** Checked arithmetic of Solidity 0.8: [x++] panics with code 0x11 when
    [x] is the largest [uint256]. *)
Definition checked_increment (x : uint256) : M uint256 :=
  if x =? MAX_UINT256 then panic 0x11 else ret (x + 1).

(** An external call: the storage is rolled back when the body fails. *)
Definition call {A : Type} (body : M A) (s : Storage)
  : Storage * (Failure + A * list Event) :=
  match body s with
  | Done a s' log => (s', inr (a, log))
  | Failed f _ => (s, inl f)
  end.

(** ** Modifiers *)

Definition onlyOwner {A : Type} (e : Env) (body : M A) : M A :=
  let* o := sload owner in
  run* require (msg_sender e =? o) "Only owner can call this function" in
  body.

Definition onlyAuthorizedIssuer {A : Type} (e : Env) (body : M A) : M A :=
  let* ok := sload (fun s => authorizedIssuers_at s (msg_sender e)) in
  run* require ok "Not an authorized issuer" in
  body.

Definition certIdNotExists {A : Type} (_certId : string) (body : M A) : M A :=
  let* r := sload (fun s => records_at s _certId) in
  run* require (negb (exists_ r)) "Certificate ID already exists" in
  body.

Definition certIdExists {A : Type} (_certId : string) (body : M A) : M A :=
  let* r := sload (fun s => records_at s _certId) in
  run* require (exists_ r) "Certificate ID does not exist" in
  body.

(** ** Constructor and admin functions *)

Definition constructor (e : Env) (_institutionName : string) : M unit :=
  run* sstore (set_owner (msg_sender e)) in
  run* sstore (set_authorizedIssuer (msg_sender e) true) in
  run* sstore (set_issuerName (msg_sender e) _institutionName) in
  emit (IssuerAuthorized (msg_sender e) _institutionName).

Definition authorizeIssuer (e : Env) (_issuer : address) (_name : string) : M unit :=
  onlyOwner e (
    run* require (negb (_issuer =? 0)) "Invalid issuer address" in
    let* already := sload (fun s => authorizedIssuers_at s _issuer) in
    run* require (negb already) "Issuer already authorized" in
    run* sstore (set_authorizedIssuer _issuer true) in
    run* sstore (set_issuerName _issuer _name) in
    emit (IssuerAuthorized _issuer _name)).

Definition revokeIssuer (e : Env) (_issuer : address) : M unit :=
  onlyOwner e (
    let* ok := sload (fun s => authorizedIssuers_at s _issuer) in
    run* require ok "Issuer not authorized" in
    let* o := sload owner in
    run* require (negb (_issuer =? o)) "Cannot revoke owner" in
    run* sstore (set_authorizedIssuer _issuer false) in
    emit (IssuerRevoked _issuer)).

Definition transferOwnership (e : Env) (_newOwner : address) : M unit :=
  onlyOwner e (
    run* require (negb (_newOwner =? 0)) "Invalid new owner address" in
    let* o := sload owner in
    run* require (negb (_newOwner =? o)) "Already the owner" in
    run* sstore (set_owner _newOwner) in
    let* ok := sload (fun s => authorizedIssuers_at s _newOwner) in
    if negb ok then sstore (set_authorizedIssuer _newOwner true) else ret tt).

(** ** Core functions *)

Definition addAlumniRecord (e : Env) (_certId : string) (_dataHash : bytes32)
  : M (bool * uint256 * uint256) :=
  onlyAuthorizedIssuer e (certIdNotExists _certId (
    run* require (0 <? String.length _certId)%nat "Certificate ID cannot be empty" in
    run* require (negb (_dataHash =? 0)) "Data hash cannot be empty" in
    let* name := sload (fun s => issuerNames_at s (msg_sender e)) in
    let newRecord :=
      {| certId := _certId; dataHash := _dataHash; issuer := msg_sender e;
         timestamp := block_timestamp e; blockNumber := block_number e;
         exists_ := true; issuerName := name |} in
    run* sstore (set_record _certId newRecord) in
    run* sstore (push_certificateId _certId) in
    let* n := sload totalRecords in
    let* n' := checked_increment n in
    run* sstore (set_totalRecords n') in
    let* name' := sload (fun s => issuerNames_at s (msg_sender e)) in
    run* emit (AlumniRecordAdded _certId _dataHash (msg_sender e) name'
                 (block_timestamp e) (block_number e)) in
    ret (true, block_timestamp e, block_number e))).

Definition verifyRecord (_certId : string) (_dataHash : bytes32)
  : M (bool * address * string * uint256 * uint256) :=
  certIdExists _certId (
    let* record := sload (fun s => records_at s _certId) in
    let isValid := dataHash record =? _dataHash in
    run* emit (RecordVerified _certId isValid) in
    ret (isValid, issuer record, issuerName record, timestamp record,
         blockNumber record)).

(** ** View and pure functions *)

Definition getRecord (s : Storage) (_certId : string)
  : bytes32 * address * string * uint256 * uint256 * bool :=
  let record := records_at s _certId in
  (dataHash record, issuer record, issuerName record, timestamp record,
   blockNumber record, exists_ record).

Definition recordExists (s : Storage) (_certId : string) : bool :=
  exists_ (records_at s _certId).

Definition getAllCertificateIds (s : Storage) : list string := certificateIds s.

Definition getTotalRecords (s : Storage) : uint256 := totalRecords s.

Definition isAuthorizedIssuer (s : Storage) (_address : address) : bool :=
  authorizedIssuers_at s _address.

Definition getIssuerName (s : Storage) (_issuer : address) : string :=
  issuerNames_at s _issuer.

Definition generateDataHash
  (_name _rollNumber _degree _branch _graduationYear _certId : string) : bytes32 :=
  keccak256
    (abi_encodePacked
       [_name; _rollNumber; _degree; _branch; _graduationYear; _certId]).

(** ** External calls and traces

    The state-changing external functions, as a transaction names them. *)

Inductive Call : Type :=
| AuthorizeIssuer (_issuer : address) (_name : string)
| RevokeIssuer (_issuer : address)
| TransferOwnership (_newOwner : address)
| AddAlumniRecord (_certId : string) (_dataHash : bytes32)
| VerifyRecord (_certId : string) (_dataHash : bytes32).

Inductive ReturnData : Type :=
| NoData
| Added (success : bool) (timestamp blockNumber : uint256)
| Verified (isValid : bool) (issuer : address) (issuerName : string)
    (timestamp blockNumber : uint256).

Definition returning {A B : Type} (f : A -> B) (m : M A) : M B := fun s =>
  match m s with
  | Done a s' log => Done (f a) s' log
  | Failed f' s' => Failed f' s'
  end.

Definition dispatch (e : Env) (c : Call) : M ReturnData :=
  match c with
  | AuthorizeIssuer i n => returning (fun _ => NoData) (authorizeIssuer e i n)
  | RevokeIssuer i => returning (fun _ => NoData) (revokeIssuer e i)
  | TransferOwnership n => returning (fun _ => NoData) (transferOwnership e n)
  | AddAlumniRecord c h =>
      returning (fun '(ok, ts, bn) => Added ok ts bn) (addAlumniRecord e c h)
  | VerifyRecord c h =>
      returning (fun '(v, i, n, ts, bn) => Verified v i n ts bn) (verifyRecord c h)
  end.

Definition exec (e : Env) (c : Call) (s : Storage)
  : Storage * (Failure + ReturnData * list Event) :=
  call (dispatch e c) s.

(** Deployment runs the constructor on the all-zero storage. *)
Definition deploy (e : Env) (_institutionName : string) : Storage :=
  fst (call (constructor e _institutionName) empty_storage).

Fixpoint run (s : Storage) (txs : list (Env * Call)) : Storage :=
  match txs with
  | [] => s
  | (e, c) :: rest => run (fst (exec e c s)) rest
  end.

(** The certificate ids whose creation succeeded, oldest first. *)
Definition created_by (e : Env) (c : Call) (s : Storage) : list string :=
  match c, snd (exec e c s) with
  | AddAlumniRecord cid _, inr _ => [cid]
  | _, _ => []
  end.

Fixpoint created (s : Storage) (txs : list (Env * Call)) : list string :=
  match txs with
  | [] => []
  | (e, c) :: rest => created_by e c s ++ created (fst (exec e c s)) rest
  end.

Inductive reachable : Storage -> Prop :=
| reachable_deploy (e : Env) (_institutionName : string) :
    reachable (deploy e _institutionName)
| reachable_exec (s : Storage) (e : Env) (c : Call) :
    reachable s -> reachable (fst (exec e c s)).

(** ** The failure kinds of the specification

    The contract names a failure by its revert reason; the specification
    groups the reasons in kinds. *)

Inductive Kind : Type :=
| Unauthorized | InvalidInput | AlreadyAuthorized | NotAuthorized
| CannotRevokeOwner | NoOp | AlreadyExists | NotFound.

Definition spec_kind (reason : string) : option Kind :=
  if String.eqb reason "Only owner can call this function" then Some Unauthorized
  else if String.eqb reason "Not an authorized issuer" then Some Unauthorized
  else if String.eqb reason "Certificate ID already exists" then Some AlreadyExists
  else if String.eqb reason "Certificate ID does not exist" then Some NotFound
  else if String.eqb reason "Invalid issuer address" then Some InvalidInput
  else if String.eqb reason "Issuer already authorized" then Some AlreadyAuthorized
  else if String.eqb reason "Issuer not authorized" then Some NotAuthorized
  else if String.eqb reason "Cannot revoke owner" then Some CannotRevokeOwner
  else if String.eqb reason "Invalid new owner address" then Some InvalidInput
  else if String.eqb reason "Already the owner" then Some NoOp
  else if String.eqb reason "Certificate ID cannot be empty" then Some InvalidInput
  else if String.eqb reason "Data hash cannot be empty" then Some InvalidInput
  else None.

(** The failure kinds the specification lists for each operation. *)
Definition spec_failure_kinds (c : Call) : list Kind :=
  match c with
  | AuthorizeIssuer _ _ => [Unauthorized; InvalidInput; AlreadyAuthorized]
  | RevokeIssuer _ => [Unauthorized; NotAuthorized; CannotRevokeOwner]
  | TransferOwnership _ => [Unauthorized; InvalidInput; NoOp]
  | AddAlumniRecord _ _ => [Unauthorized; InvalidInput; AlreadyExists]
  | VerifyRecord _ _ => [NotFound]
  end.

(** [fails_with r reason k]: the call reverted with [reason], of kind [k]. *)
Definition fails_with {A : Type} (r : Failure + A) (reason : string) (k : Kind) : Prop :=
  r = inl (Revert reason) /\ spec_kind reason = Some k.

(** ** Definitions the statements use *)

(** The record [addAlumniRecord] builds. *)
Definition new_record (e : Env) (s : Storage) (c : string) (h : bytes32) : AlumniRecord :=
  {| certId := c; dataHash := h; issuer := msg_sender e;
     timestamp := block_timestamp e; blockNumber := block_number e;
     exists_ := true; issuerName := issuerNames_at s (msg_sender e) |}.

(** The storage a successful [addAlumniRecord] leaves. *)
Definition added (e : Env) (s : Storage) (c : string) (h : bytes32) : Storage :=
  set_totalRecords (totalRecords s + 1)
    (push_certificateId c (set_record c (new_record e s c h) s)).

(** What holds of every storage reachable from deployment. *)
Record invariant (s : Storage) : Prop := mkInvariant {
  inv_owner_authorized : authorizedIssuers_at s (owner s) = true;
  inv_total : N.of_nat (length (certificateIds s)) = totalRecords s;
  inv_index : forall c, c ∈ certificateIds s <-> exists_ (records_at s c) = true;
  inv_nodup : NoDup (certificateIds s)
}.


(** ** The fixtures of the contract's test suite *)

Module Tests.

Definition owner_ : address := 0x7FA9.
Definition issuer1 : address := 0x1551.
Definition issuer2 : address := 0x1552.
Definition unauthorized : address := 0x0BAD.

Definition as_ (a : address) : Env :=
  {| msg_sender := a; block_timestamp := 1; block_number := 1 |}.

Definition setUp : Storage := deploy (as_ owner_) "Test University".

Definition SAMPLE_CERT_ID : string := "CERT-2025-TEST001".

Definition sample_hash : bytes32 :=
  generateDataHash "Saurabh Singh" "2214094" "B.Tech" "Information Technology"
    "2026" SAMPLE_CERT_ID.

End Tests.

(** ** Well-formed ledgers and event logs *)

(** What holds of the entries of [records] and of the counter in every
    storage reachable from deployment. *)
Record ledger_wf (s : Storage) : Prop := mkLedgerWf {
  wf_entries : forall c r, records s !! c = Some r ->
    exists_ r = true /\ certId r = c /\ c <> EmptyString /\ dataHash r <> 0;
  wf_counter : totalRecords s <= MAX_UINT256
}.



(** The record an [AlumniRecordAdded] event announces. *)
Definition announced (ev : Event)
  : option (string * (bytes32 * address * string * uint256 * uint256 * bool)) :=
  match ev with
  | AlumniRecordAdded c h i n ts bn => Some (c, (h, i, n, ts, bn, true))
  | _ => None
  end.


(** ** The scripts of [script/DeployAlumniVerification.s.sol]

    [SetupAlumniVerification] and [TestAlumniVerification] call the deployed
    contract between [vm.startBroadcast] and [vm.stopBroadcast]: the caller
    of every call is the address of the broadcasting key, [msg_sender e]; a
    call that reverts makes the script revert.  [console.log] is left out. *)
Module Script.



Definition testAddRecord (e : Env) : M unit :=
  let name := "Saurabh Singh"%string in
  let rollNumber := "2214094"%string in
  let degree := "B.Tech"%string in
  let branch := "Information Technology"%string in
  let graduationYear := "2026"%string in
  let certId := "CERT-2025-TEST001"%string in
  let dataHash := generateDataHash name rollNumber degree branch graduationYear certId in
  let* result := addAlumniRecord e certId dataHash in
  require (fst (fst result)) "Failed to add record".

End Script.


(** ** Tactics *)

Ltac unfold_body :=
  unfold authorizeIssuer, revokeIssuer, transferOwnership, addAlumniRecord,
    verifyRecord, constructor, onlyOwner, onlyAuthorizedIssuer,
    certIdNotExists, certIdExists, checked_increment, bind, sload, sstore,
    require, panic, emit, ret.

Ltac failed_call :=
  match goal with
  | |- snd (_, inr _) = inl _ -> _ => discriminate
  | |- snd (?s, inl ?g) = inl ?f -> _ =>
      intros [= <-]; cbn [fst];
      split; [reflexivity|];
      split;
      [ eexists; split; [reflexivity|]; first [ by intros ? | by intros ? [=] ]
      | left; do 2 eexists; split; [reflexivity|];
        split; [reflexivity|]; set_solver ]
  end.

Ltac registry_case :=
  unfold authorizedIssuers_at, issuerNames_at in *;
  cbn [fst authorizedIssuers issuerNames owner set_owner set_authorizedIssuer
       set_issuerName set_record push_certificateId set_totalRecords];
  rewrite ?lookup_insert;
  repeat case_decide; subst; simpl;
  split_and!; intros; try congruence; try done; eauto 7.

(** * Part II: the test suite, replayed on the embedding *)

(** Standard vectors of Keccak-256, the second block included. *)
Example keccak256_empty :
  keccak256 "" = 0xc5d2460186f7233c927e7db2dcc703c0e500b653ca82273b7bfad8045d85a470.
Proof. vm_compute. reflexivity. Qed.

Example keccak256_abc :
  keccak256 "abc" = 0x4e03657aea45a94fc7d47ba826c8d667c0d1e6e33a64a036ec44f58fa12d6c45.
Proof. vm_compute. reflexivity. Qed.

Example keccak256_two_blocks :
  keccak256 (string_of_list_ascii (repeat "a"%char 136)) =
  0xa6c4d403279fe3e0af03729caada8374b5ca54d8065329a3ebcaeb4b60aa386e.
Proof. vm_compute. reflexivity. Qed.

Module TestSuite.
Import Tests.

Example test_Deployment :
  owner setUp = owner_ /\
  authorizedIssuers_at setUp owner_ = true /\
  issuerNames_at setUp owner_ = "Test University" /\
  totalRecords setUp = 0.
Proof. vm_compute. repeat split. Qed.

Example test_AuthorizeIssuer :
  let r := exec (as_ owner_) (AuthorizeIssuer issuer1 "College of Engineering") setUp in
  snd r = inr (NoData, [IssuerAuthorized issuer1 "College of Engineering"]) /\
  authorizedIssuers_at (fst r) issuer1 = true /\
  issuerNames_at (fst r) issuer1 = "College of Engineering".
Proof. vm_compute. repeat split. Qed.

Example test_RevertWhen_NonOwnerAuthorizesIssuer :
  snd (exec (as_ unauthorized) (AuthorizeIssuer issuer1 "College of Engineering") setUp)
  = inl (Revert "Only owner can call this function").
Proof. vm_compute. reflexivity. Qed.

Example test_RevertWhen_RevokingOwner :
  snd (exec (as_ owner_) (RevokeIssuer owner_) setUp) = inl (Revert "Cannot revoke owner").
Proof. vm_compute. reflexivity. Qed.

Example test_RevertWhen_AuthorizingZeroAddress :
  snd (exec (as_ owner_) (AuthorizeIssuer 0 "College of Engineering") setUp)
  = inl (Revert "Invalid issuer address").
Proof. vm_compute. reflexivity. Qed.

Example test_RevertWhen_AuthorizingExistingIssuer :
  let s := fst (exec (as_ owner_) (AuthorizeIssuer issuer1 "College of Engineering") setUp) in
  snd (exec (as_ owner_) (AuthorizeIssuer issuer1 "Another Name") s)
  = inl (Revert "Issuer already authorized").
Proof. vm_compute. reflexivity. Qed.

Example test_RevokeIssuer :
  let s := fst (exec (as_ owner_) (AuthorizeIssuer issuer1 "College of Engineering") setUp) in
  let r := exec (as_ owner_) (RevokeIssuer issuer1) s in
  snd r = inr (NoData, [IssuerRevoked issuer1]) /\
  authorizedIssuers_at (fst r) issuer1 = false.
Proof. vm_compute. repeat split. Qed.

Example test_RevertWhen_RevokingUnauthorizedIssuer :
  snd (exec (as_ owner_) (RevokeIssuer unauthorized) setUp)
  = inl (Revert "Issuer not authorized").
Proof. vm_compute. reflexivity. Qed.

Example test_TransferOwnership :
  let s := fst (exec (as_ owner_) (TransferOwnership issuer2) setUp) in
  owner s = issuer2 /\ authorizedIssuers_at s issuer2 = true.
Proof. vm_compute. repeat split. Qed.

Example test_RevertWhen_TransferringToZeroAddress :
  snd (exec (as_ owner_) (TransferOwnership 0) setUp)
  = inl (Revert "Invalid new owner address").
Proof. vm_compute. reflexivity. Qed.

Example test_RevertWhen_TransferringToCurrentOwner :
  snd (exec (as_ owner_) (TransferOwnership owner_) setUp)
  = inl (Revert "Already the owner").
Proof. vm_compute. reflexivity. Qed.

Example test_AddAlumniRecord :
  let r := exec (as_ owner_) (AddAlumniRecord SAMPLE_CERT_ID sample_hash) setUp in
  snd r = inr (Added true 1 1,
               [AlumniRecordAdded SAMPLE_CERT_ID sample_hash owner_
                  "Test University" 1 1]) /\
  totalRecords (fst r) = 1 /\
  recordExists (fst r) SAMPLE_CERT_ID = true.
Proof. vm_compute. repeat split. Qed.

Example test_AddMultipleRecords :
  let s := run setUp
    [ (as_ owner_, AddAlumniRecord "CERT-001" 11);
      (as_ owner_, AddAlumniRecord "CERT-002" 12) ] in
  totalRecords s = 2 /\ getAllCertificateIds s = ["CERT-001"; "CERT-002"]%string.
Proof. vm_compute. repeat split. Qed.

Example test_RevertWhen_AddingDuplicateCertId :
  let s := fst (exec (as_ owner_) (AddAlumniRecord "CERT-001" 11) setUp) in
  snd (exec (as_ owner_) (AddAlumniRecord "CERT-001" 11) s)
  = inl (Revert "Certificate ID already exists").
Proof. vm_compute. reflexivity. Qed.

Example test_RevertWhen_AddingEmptyHash :
  snd (exec (as_ owner_) (AddAlumniRecord "CERT-001" 0) setUp)
  = inl (Revert "Data hash cannot be empty").
Proof. vm_compute. reflexivity. Qed.

Example test_RevertWhen_UnauthorizedAddsRecord :
  snd (exec (as_ unauthorized) (AddAlumniRecord "CERT-001" (keccak256 "test")) setUp)
  = inl (Revert "Not an authorized issuer").
Proof. vm_compute. reflexivity. Qed.

Example test_RevertWhen_AddingEmptyCertId :
  snd (exec (as_ owner_) (AddAlumniRecord "" (keccak256 "test")) setUp)
  = inl (Revert "Certificate ID cannot be empty").
Proof. vm_compute. reflexivity. Qed.

Example test_VerifyRecord_Invalid :
  let s := fst (exec (as_ owner_)
                  (AddAlumniRecord SAMPLE_CERT_ID (keccak256 "correct")) setUp) in
  snd (exec (as_ owner_) (VerifyRecord SAMPLE_CERT_ID (keccak256 "wrong")) s)
  = inr (Verified false owner_ "Test University" 1 1,
         [RecordVerified SAMPLE_CERT_ID false]).
Proof. vm_compute. reflexivity. Qed.

Example test_RevertWhen_VerifyingNonExistentRecord :
  snd (exec (as_ owner_) (VerifyRecord "NON-EXISTENT" (keccak256 "test")) setUp)
  = inl (Revert "Certificate ID does not exist").
Proof. vm_compute. reflexivity. Qed.

Example test_GetRecord_NonExistent :
  getRecord setUp "NON-EXISTENT" = (0, 0, EmptyString, 0, 0, false).
Proof. vm_compute. reflexivity. Qed.

Example test_GenerateDataHash_DifferentInputs :
  (generateDataHash "Name1" "001" "B.Tech" "CS" "2025" "CERT-001" =?
   generateDataHash "Name2" "002" "M.Tech" "IT" "2026" "CERT-002") = false.
Proof. vm_compute. reflexivity. Qed.

(** The scenario of the specification: owner O, issuer I, "Acme College". *)
Example scenario_acme_college :
  let H := generateDataHash "Jane Doe" "R1" "BSc" "CS" "2024" "CERT-1" in
  let s := run setUp
    [ (as_ owner_, AuthorizeIssuer issuer1 "Acme College");
      (as_ issuer1, AddAlumniRecord "CERT-1" H) ] in
  getRecord s "CERT-1" = (H, issuer1, "Acme College"%string, 1, 1, true) /\
  snd (exec (as_ unauthorized) (VerifyRecord "CERT-1" H) s)
  = inr (Verified true issuer1 "Acme College" 1 1, [RecordVerified "CERT-1" true]) /\
  snd (exec (as_ unauthorized) (VerifyRecord "CERT-1" (H + 1)) s)
  = inr (Verified false issuer1 "Acme College" 1 1, [RecordVerified "CERT-1" false]) /\
  snd (exec (as_ issuer1) (AddAlumniRecord "CERT-1" 2) s)
  = inl (Revert "Certificate ID already exists").
Proof. vm_compute. repeat split. Qed.

Example test_CompleteWorkflow :
  let s := run setUp
    [ (as_ owner_, AuthorizeIssuer issuer1 "College of Engineering");
      (as_ issuer1, AddAlumniRecord SAMPLE_CERT_ID sample_hash) ] in
  snd (exec (as_ unauthorized) (VerifyRecord SAMPLE_CERT_ID sample_hash) s)
  = inr (Verified true issuer1 "College of Engineering" 1 1,
         [RecordVerified SAMPLE_CERT_ID true]) /\
  totalRecords s = 1.
Proof. vm_compute. repeat split. Qed.

End TestSuite.

(** * Part III: what the functions compute *)

(** ** What each body computes

    One equation per function: the checks in the order the body makes them,
    and the storage and events of the successful path. *)

Lemma authorizeIssuer_body e i n s :
  authorizeIssuer e i n s =
    if negb (msg_sender e =? owner s)
    then Failed (Revert "Only owner can call this function") s
    else if i =? 0 then Failed (Revert "Invalid issuer address") s
    else if authorizedIssuers_at s i
    then Failed (Revert "Issuer already authorized") s
    else Done tt (set_issuerName i n (set_authorizedIssuer i true s))
           [IssuerAuthorized i n].
Proof.
  unfold_body.
  destruct (msg_sender e =? owner s); cbn; [|reflexivity].
  destruct (i =? 0); cbn; [reflexivity|].
  destruct (authorizedIssuers_at s i); reflexivity.
Qed.

Lemma revokeIssuer_body e i s :
  revokeIssuer e i s =
    if negb (msg_sender e =? owner s)
    then Failed (Revert "Only owner can call this function") s
    else if negb (authorizedIssuers_at s i)
    then Failed (Revert "Issuer not authorized") s
    else if i =? owner s then Failed (Revert "Cannot revoke owner") s
    else Done tt (set_authorizedIssuer i false s) [IssuerRevoked i].
Proof.
  unfold_body.
  destruct (msg_sender e =? owner s); cbn; [|reflexivity].
  destruct (authorizedIssuers_at s i); cbn; [|reflexivity].
  destruct (i =? owner s); reflexivity.
Qed.

Lemma transferOwnership_body e n s :
  transferOwnership e n s =
    if negb (msg_sender e =? owner s)
    then Failed (Revert "Only owner can call this function") s
    else if n =? 0 then Failed (Revert "Invalid new owner address") s
    else if n =? owner s then Failed (Revert "Already the owner") s
    else if authorizedIssuers_at s n then Done tt (set_owner n s) []
    else Done tt (set_authorizedIssuer n true (set_owner n s)) [].
Proof.
  unfold_body.
  destruct (msg_sender e =? owner s); cbn; [|reflexivity].
  destruct (n =? 0); cbn; [reflexivity|].
  destruct (n =? owner s); cbn; [reflexivity|].
  unfold authorizedIssuers_at; cbn.
  destruct (default false (authorizedIssuers s !! n)); reflexivity.
Qed.

Lemma addAlumniRecord_body e c h s :
  addAlumniRecord e c h s =
    if negb (authorizedIssuers_at s (msg_sender e))
    then Failed (Revert "Not an authorized issuer") s
    else if exists_ (records_at s c)
    then Failed (Revert "Certificate ID already exists") s
    else if negb (0 <? String.length c)%nat
    then Failed (Revert "Certificate ID cannot be empty") s
    else if h =? 0 then Failed (Revert "Data hash cannot be empty") s
    else if totalRecords s =? MAX_UINT256
    then Failed (Panic 0x11)
           (push_certificateId c (set_record c (new_record e s c h) s))
    else Done (true, block_timestamp e, block_number e)
           (set_totalRecords (totalRecords s + 1)
              (push_certificateId c (set_record c (new_record e s c h) s)))
           [AlumniRecordAdded c h (msg_sender e)
              (issuerNames_at s (msg_sender e))
              (block_timestamp e) (block_number e)].
Proof.
  unfold_body.
  destruct (authorizedIssuers_at s (msg_sender e)); cbn -[Nat.ltb]; [|reflexivity].
  destruct (exists_ (records_at s c)); cbn -[Nat.ltb]; [reflexivity|].
  destruct (0 <? String.length c)%nat; cbn; [|reflexivity].
  destruct (h =? 0); cbn; [reflexivity|].
  destruct (totalRecords s =? MAX_UINT256); reflexivity.
Qed.

Lemma verifyRecord_body c h s :
  verifyRecord c h s =
    if exists_ (records_at s c)
    then Done (dataHash (records_at s c) =? h, issuer (records_at s c),
               issuerName (records_at s c), timestamp (records_at s c),
               blockNumber (records_at s c)) s
           [RecordVerified c (dataHash (records_at s c) =? h)]
    else Failed (Revert "Certificate ID does not exist") s.
Proof.
  unfold_body.
  destruct (exists_ (records_at s c)); reflexivity.
Qed.

Lemma constructor_body e n s :
  constructor e n s =
    Done tt
      (set_issuerName (msg_sender e) n
         (set_authorizedIssuer (msg_sender e) true (set_owner (msg_sender e) s)))
      [IssuerAuthorized (msg_sender e) n].
Proof. reflexivity. Qed.

(** ** Reads after writes *)

Lemma authorizedIssuers_at_set a b s a' :
  authorizedIssuers_at (set_authorizedIssuer a b s) a' =
    if decide (a = a') then b else authorizedIssuers_at s a'.
Proof.
  unfold authorizedIssuers_at; cbn.
  rewrite lookup_insert. destruct (decide (a = a')); reflexivity.
Qed.


Lemma records_at_set c r s c' :
  records_at (set_record c r s) c' =
    if decide (c = c') then r else records_at s c'.
Proof.
  unfold records_at; cbn.
  rewrite lookup_insert. destruct (decide (c = c')); reflexivity.
Qed.

(** ** What each external call returns *)

Lemma exec_authorizeIssuer e i n s :
  exec e (AuthorizeIssuer i n) s =
    if negb (msg_sender e =? owner s)
    then (s, inl (Revert "Only owner can call this function"))
    else if i =? 0 then (s, inl (Revert "Invalid issuer address"))
    else if authorizedIssuers_at s i
    then (s, inl (Revert "Issuer already authorized"))
    else (set_issuerName i n (set_authorizedIssuer i true s),
          inr (NoData, [IssuerAuthorized i n])).
Proof.
  unfold exec, call, dispatch, returning. rewrite authorizeIssuer_body.
  destruct (msg_sender e =? owner s), (i =? 0), (authorizedIssuers_at s i);
    reflexivity.
Qed.

Lemma exec_revokeIssuer e i s :
  exec e (RevokeIssuer i) s =
    if negb (msg_sender e =? owner s)
    then (s, inl (Revert "Only owner can call this function"))
    else if negb (authorizedIssuers_at s i)
    then (s, inl (Revert "Issuer not authorized"))
    else if i =? owner s then (s, inl (Revert "Cannot revoke owner"))
    else (set_authorizedIssuer i false s, inr (NoData, [IssuerRevoked i])).
Proof.
  unfold exec, call, dispatch, returning. rewrite revokeIssuer_body.
  destruct (msg_sender e =? owner s), (authorizedIssuers_at s i), (i =? owner s);
    reflexivity.
Qed.

Lemma exec_transferOwnership e n s :
  exec e (TransferOwnership n) s =
    if negb (msg_sender e =? owner s)
    then (s, inl (Revert "Only owner can call this function"))
    else if n =? 0 then (s, inl (Revert "Invalid new owner address"))
    else if n =? owner s then (s, inl (Revert "Already the owner"))
    else if authorizedIssuers_at s n then (set_owner n s, inr (NoData, []))
    else (set_authorizedIssuer n true (set_owner n s), inr (NoData, [])).
Proof.
  unfold exec, call, dispatch, returning. rewrite transferOwnership_body.
  destruct (msg_sender e =? owner s), (n =? 0), (n =? owner s),
    (authorizedIssuers_at s n); reflexivity.
Qed.

Lemma exec_addAlumniRecord e c h s :
  exec e (AddAlumniRecord c h) s =
    if negb (authorizedIssuers_at s (msg_sender e))
    then (s, inl (Revert "Not an authorized issuer"))
    else if exists_ (records_at s c)
    then (s, inl (Revert "Certificate ID already exists"))
    else if negb (0 <? String.length c)%nat
    then (s, inl (Revert "Certificate ID cannot be empty"))
    else if h =? 0 then (s, inl (Revert "Data hash cannot be empty"))
    else if totalRecords s =? MAX_UINT256 then (s, inl (Panic 0x11))
    else (set_totalRecords (totalRecords s + 1)
            (push_certificateId c (set_record c (new_record e s c h) s)),
          inr (Added true (block_timestamp e) (block_number e),
               [AlumniRecordAdded c h (msg_sender e)
                  (issuerNames_at s (msg_sender e))
                  (block_timestamp e) (block_number e)])).
Proof.
  unfold exec, call, dispatch, returning. rewrite addAlumniRecord_body.
  destruct (authorizedIssuers_at s (msg_sender e)), (exists_ (records_at s c)),
    (0 <? String.length c)%nat, (h =? 0), (totalRecords s =? MAX_UINT256);
    reflexivity.
Qed.

Lemma exec_verifyRecord e c h s :
  exec e (VerifyRecord c h) s =
    if exists_ (records_at s c)
    then (s, inr (Verified (dataHash (records_at s c) =? h)
                    (issuer (records_at s c)) (issuerName (records_at s c))
                    (timestamp (records_at s c)) (blockNumber (records_at s c)),
                  [RecordVerified c (dataHash (records_at s c) =? h)]))
    else (s, inl (Revert "Certificate ID does not exist")).
Proof.
  unfold exec, call, dispatch, returning. rewrite verifyRecord_body.
  destruct (exists_ (records_at s c)); reflexivity.
Qed.

(** ** Invariants of the reachable storages *)

Lemma invariant_deploy e n : invariant (deploy e n).
Proof.
  unfold deploy, call. rewrite constructor_body. cbn [fst].
  split.
  - unfold authorizedIssuers_at.
    cbn [owner authorizedIssuers set_issuerName set_authorizedIssuer set_owner].
    rewrite lookup_insert_eq. reflexivity.
  - reflexivity.
  - intros c. unfold records_at.
    cbn [records certificateIds set_issuerName set_authorizedIssuer set_owner
         empty_storage].
    rewrite lookup_empty. cbn. split; [by intros ?%elem_of_nil | discriminate].
  - cbn [certificateIds set_issuerName set_authorizedIssuer set_owner empty_storage].
    constructor.
Qed.

Lemma invariant_exec e c s : invariant s -> invariant (fst (exec e c s)).
Proof.
  intros [Hown Htot Hidx Hnd]. destruct c as [i n|i|n|cid h|cid h].
  - rewrite exec_authorizeIssuer.
    destruct (msg_sender e =? owner s); cbn [negb fst]; [|by split].
    destruct (i =? 0); cbn [fst]; [by split|].
    destruct (authorizedIssuers_at s i) eqn:Hi; cbn [fst]; [by split|].
    split; try assumption. cbn.
    change (authorizedIssuers_at (set_authorizedIssuer i true s) (owner s) = true).
    rewrite authorizedIssuers_at_set. destruct (decide _); [reflexivity|assumption].
  - rewrite exec_revokeIssuer.
    destruct (msg_sender e =? owner s); cbn [negb fst]; [|by split].
    destruct (authorizedIssuers_at s i) eqn:Hi; cbn [negb fst]; [|by split].
    destruct (N.eqb_spec i (owner s)) as [Heq|Hne]; cbn [fst]; [by split|].
    split; try assumption.
    change (authorizedIssuers_at (set_authorizedIssuer i false s) (owner s) = true).
    rewrite authorizedIssuers_at_set. destruct (decide _); [congruence|assumption].
  - rewrite exec_transferOwnership.
    destruct (msg_sender e =? owner s); cbn [negb fst]; [|by split].
    destruct (n =? 0); cbn [fst]; [by split|].
    destruct (n =? owner s); cbn [fst]; [by split|].
    destruct (authorizedIssuers_at s n) eqn:Hn; cbn [fst].
    + by split.
    + split; try assumption.
      change (authorizedIssuers_at (set_authorizedIssuer n true (set_owner n s)) n = true).
      rewrite authorizedIssuers_at_set. destruct (decide _); congruence.
  - rewrite exec_addAlumniRecord.
    destruct (authorizedIssuers_at s (msg_sender e)); cbn [negb fst]; [|by split].
    destruct (exists_ (records_at s cid)) eqn:Hex; cbn [fst]; [by split|].
    destruct (0 <? String.length cid)%nat; cbn [negb fst]; [|by split].
    destruct (h =? 0); cbn [fst]; [by split|].
    destruct (N.eqb_spec (totalRecords s) MAX_UINT256); cbn [fst]; [by split|].
    split.
    + exact Hown.
    + cbn. rewrite length_app. cbn. rewrite <- Htot. lia.
    + intros c'. cbn [certificateIds set_totalRecords push_certificateId].
      change (c' ∈ certificateIds s ++ [cid] <->
              exists_ (records_at (set_record cid (new_record e s cid h) s) c') = true).
      rewrite records_at_set, elem_of_app, list_elem_of_singleton.
      destruct (decide (cid = c')) as [->|Hne].
      * cbn. tauto.
      * rewrite <- Hidx. intuition congruence.
    + cbn. apply NoDup_app. repeat split; try assumption.
      * intros x Hx ->%list_elem_of_singleton. apply Hidx in Hx. congruence.
      * apply NoDup_singleton.
  - rewrite exec_verifyRecord.
    destruct (exists_ (records_at s cid)); by split.
Qed.

Lemma reachable_invariant s : reachable s -> invariant s.
Proof.
  induction 1 as [e n|s e c _ IH].
  - apply invariant_deploy.
  - by apply invariant_exec.
Qed.

Lemma records_at_added e s c h c' :
  records_at (added e s c h) c' =
    if decide (c = c') then new_record e s c h else records_at s c'.
Proof. exact (records_at_set c (new_record e s c h) s c'). Qed.

Lemma nonempty_length (c : string) : c <> EmptyString -> (0 <? String.length c)%nat = true.
Proof. destruct c; [congruence | reflexivity]. Qed.

(** A successful [addAlumniRecord], from its preconditions. *)
Lemma exec_addAlumniRecord_ok e c h s :
  authorizedIssuers_at s (msg_sender e) = true ->
  exists_ (records_at s c) = false ->
  c <> EmptyString -> h <> 0 -> totalRecords s < MAX_UINT256 ->
  exec e (AddAlumniRecord c h) s =
    (added e s c h,
     inr (Added true (block_timestamp e) (block_number e),
          [AlumniRecordAdded c h (msg_sender e) (issuerNames_at s (msg_sender e))
             (block_timestamp e) (block_number e)])).
Proof.
  intros Hauth Hex Hc Hh Hn. rewrite exec_addAlumniRecord, Hauth, Hex.
  rewrite (nonempty_length c Hc). cbn [negb].
  destruct (N.eqb_spec h 0); [congruence|].
  destruct (N.eqb_spec (totalRecords s) MAX_UINT256); [lia|]. reflexivity.
Qed.

Lemma count_occ_NoDup_1 (l : list string) (c : string) :
  NoDup l -> c ∈ l -> count_occ string_dec l c = 1%nat.
Proof.
  intros Hnd Hin. apply NoDup_ListNoDup in Hnd. apply list_elem_of_In in Hin.
  by apply (proj1 (NoDup_count_occ' string_dec l) Hnd).
Qed.

(** ** The index and the history of a trace *)

Lemma certificateIds_exec e c s :
  certificateIds (fst (exec e c s)) = certificateIds s ++ created_by e c s.
Proof.
  unfold created_by. destruct c as [i n|i|n|cid h|cid h].
  - rewrite exec_authorizeIssuer.
    destruct (msg_sender e =? owner s), (i =? 0), (authorizedIssuers_at s i);
      cbn; by rewrite app_nil_r.
  - rewrite exec_revokeIssuer.
    destruct (msg_sender e =? owner s), (authorizedIssuers_at s i), (i =? owner s);
      cbn; by rewrite app_nil_r.
  - rewrite exec_transferOwnership.
    destruct (msg_sender e =? owner s), (n =? 0), (n =? owner s),
      (authorizedIssuers_at s n); cbn; by rewrite app_nil_r.
  - rewrite exec_addAlumniRecord.
    destruct (authorizedIssuers_at s (msg_sender e)), (exists_ (records_at s cid)),
      (0 <? String.length cid)%nat, (h =? 0), (totalRecords s =? MAX_UINT256);
      cbn; by rewrite ?app_nil_r.
  - rewrite exec_verifyRecord.
    destruct (exists_ (records_at s cid)); cbn; by rewrite app_nil_r.
Qed.

Lemma certificateIds_run txs : forall s,
  certificateIds (run s txs) = certificateIds s ++ created s txs.
Proof.
  induction txs as [|[e c] rest IH]; intros s; cbn [run created].
  - by rewrite app_nil_r.
  - rewrite IH, certificateIds_exec. by rewrite app_assoc.
Qed.

Lemma reachable_run txs : forall s, reachable s -> reachable (run s txs).
Proof.
  induction txs as [|[e c] rest IH]; intros s Hs; cbn [run]; [assumption|].
  apply IH. by apply reachable_exec.
Qed.

Lemma run_app txs txs' : forall s, run s (txs ++ txs') = run (run s txs) txs'.
Proof.
  induction txs as [|[e c] rest IH]; intros s; cbn [run app]; [reflexivity|].
  apply IH.
Qed.

(** The reachable storages are the results of the traces from deployment. *)
Lemma reachable_iff_run s :
  reachable s <-> exists e0 name txs, s = run (deploy e0 name) txs.
Proof.
  split.
  - induction 1 as [e0 name|s e c _ (e0 & name & txs & ->)].
    + by exists e0, name, [].
    + exists e0, name, (txs ++ [(e, c)]). by rewrite run_app.
  - intros (e0 & name & txs & ->). apply reachable_run, reachable_deploy.
Qed.

(** ** The packed encoding *)

Lemma append_cons (ch : ascii) (a b : string) :
  String.append (String ch a) b = String ch (String.append a b).
Proof. reflexivity. Qed.

Lemma append_assoc (a b c : string) :
  String.append (String.append a b) c = String.append a (String.append b c).
Proof.
  induction a as [|ch a IH]; [reflexivity|]. by rewrite !append_cons, IH.
Qed.

Lemma append_empty_r (a : string) : String.append a EmptyString = a.
Proof.
  induction a as [|ch a IH]; [reflexivity|]. by rewrite append_cons, IH.
Qed.






(** Moving the boundary between two adjacent arguments keeps the encoding. *)
Lemma abi_encodePacked_boundary (x y z : string) (rest : list string) :
  abi_encodePacked (String.append x y :: z :: rest) =
  abi_encodePacked (x :: String.append y z :: rest).
Proof. cbn [abi_encodePacked]. by rewrite !append_assoc. Qed.


(** ** Records are written once *)

Lemma records_at_exec (e : Env) (op : Call) (s : Storage) (c : string) :
  exists_ (records_at s c) = true ->
  records_at (fst (exec e op s)) c = records_at s c.
Proof.
  intros Hex. destruct op as [i n|i|n|cid h|cid h].
  - rewrite exec_authorizeIssuer.
    by destruct (msg_sender e =? owner s), (i =? 0), (authorizedIssuers_at s i).
  - rewrite exec_revokeIssuer.
    by destruct (msg_sender e =? owner s), (authorizedIssuers_at s i), (i =? owner s).
  - rewrite exec_transferOwnership.
    by destruct (msg_sender e =? owner s), (n =? 0), (n =? owner s),
      (authorizedIssuers_at s n).
  - rewrite exec_addAlumniRecord.
    destruct (authorizedIssuers_at s (msg_sender e)); [|done].
    destruct (exists_ (records_at s cid)) eqn:Hcid; [done|].
    destruct (0 <? String.length cid)%nat; [|done].
    destruct (h =? 0); [done|].
    destruct (totalRecords s =? MAX_UINT256); [done|]. cbn [negb fst].
    change (records_at (added e s cid h) c = records_at s c).
    rewrite records_at_added. destruct (decide (cid = c)); [congruence|done].
  - rewrite exec_verifyRecord. by destruct (exists_ (records_at s cid)).
Qed.

Lemma records_at_run (s : Storage) (txs : list (Env * Call)) (c : string) :
  exists_ (records_at s c) = true ->
  records_at (run s txs) c = records_at s c.
Proof.
  revert s. induction txs as [|[e op] rest IH]; intros s Hex; cbn [run]; [done|].
  pose proof (records_at_exec e op s c Hex) as Hstep.
  rewrite IH; [done | by rewrite Hstep].
Qed.

(** * Part IV: the properties of the specification *)

(** C1. In a reachable ledger that holds no record for [c], two calls of
    [addAlumniRecord] with the same non-empty [c] by authorized callers, the
    first with a non-zero hash, give success and then the failure
    "Certificate ID already exists" (kind AlreadyExists); the second call
    changes nothing, the ledger holds the record the first call stored, and
    [c] stands exactly once in the index.  The counter is a [uint256], so the
    first call needs it below its maximum. *)
Theorem addAlumniRecord_twice (s : Storage) (e1 e2 : Env) (c : string) (h h' : bytes32) :
  reachable s ->
  isAuthorizedIssuer s (msg_sender e1) = true ->
  isAuthorizedIssuer s (msg_sender e2) = true ->
  c <> EmptyString -> h <> 0 ->
  recordExists s c = false ->
  getTotalRecords s < MAX_UINT256 ->
  let first := exec e1 (AddAlumniRecord c h) s in
  let second := exec e2 (AddAlumniRecord c h') (fst first) in
  snd first =
    inr (Added true (block_timestamp e1) (block_number e1),
         [AlumniRecordAdded c h (msg_sender e1) (getIssuerName s (msg_sender e1))
            (block_timestamp e1) (block_number e1)]) /\
  fails_with (snd second) "Certificate ID already exists" AlreadyExists /\
  fst second = fst first /\
  getRecord (fst second) c =
    (h, msg_sender e1, getIssuerName s (msg_sender e1),
     block_timestamp e1, block_number e1, true) /\
  count_occ string_dec (getAllCertificateIds (fst second)) c = 1%nat /\
  getTotalRecords (fst second) = getTotalRecords s + 1.
Proof.
  unfold isAuthorizedIssuer, recordExists, getTotalRecords, getIssuerName.
  intros Hreach Hauth1 Hauth2 Hc Hh Hfresh Hroom. cbv zeta.
  rewrite (exec_addAlumniRecord_ok e1 c h s) by assumption. cbn [fst snd].
  assert (Hsecond : exec e2 (AddAlumniRecord c h') (added e1 s c h) =
                    (added e1 s c h, inl (Revert "Certificate ID already exists"))).
  { rewrite exec_addAlumniRecord.
    change (authorizedIssuers_at (added e1 s c h) (msg_sender e2))
      with (authorizedIssuers_at s (msg_sender e2)).
    rewrite Hauth2, records_at_added. cbn [negb].
    destruct (decide (c = c)); [reflexivity | congruence]. }
  rewrite Hsecond. cbn [fst snd].
  repeat split.
  - unfold getRecord. rewrite records_at_added.
    destruct (decide (c = c)); [reflexivity | congruence].
  - apply reachable_invariant in Hreach as [_ _ Hidx Hnd].
    unfold getAllCertificateIds. cbn [certificateIds added set_totalRecords push_certificateId set_record].
    apply count_occ_NoDup_1.
    + apply NoDup_app. repeat split; [assumption| |apply NoDup_singleton].
      intros x Hx ->%list_elem_of_singleton. apply Hidx in Hx. congruence.
    + apply elem_of_app. right. by apply list_elem_of_singleton.
Qed.

Lemma addAlumniRecord_twice_witness :
  let first := exec (Tests.as_ Tests.owner_) (AddAlumniRecord "CERT-001" 11) Tests.setUp in
  let second := exec (Tests.as_ Tests.owner_) (AddAlumniRecord "CERT-001" 12) (fst first) in
  fails_with (snd second) "Certificate ID already exists" AlreadyExists /\
  count_occ string_dec (getAllCertificateIds (fst second)) "CERT-001" = 1%nat.
Proof.
  pose proof (addAlumniRecord_twice Tests.setUp (Tests.as_ Tests.owner_)
                (Tests.as_ Tests.owner_) "CERT-001" 11 12) as H.
  destruct H as (_ & Hsecond & _ & _ & Hcount & _).
  - apply reachable_deploy.
  - reflexivity.
  - reflexivity.
  - discriminate.
  - discriminate.
  - reflexivity.
  - reflexivity.
  - split; assumption.
Defined.

(** C2. [verifyRecord certId candidateHash] fails, with "Certificate ID does
    not exist" (kind NotFound), exactly when no record exists for [certId],
    and has no other failure.  When the record exists the call succeeds, also
    on a mismatch: [isValid] is the equality of the candidate with the stored
    hash, and the issuer, its name and the sequence fields are the record's.
    The storage is never changed. *)
Theorem verifyRecord_spec (s : Storage) (e : Env) (c : string) (h : bytes32) :
  let r := exec e (VerifyRecord c h) s in
  (fails_with (snd r) "Certificate ID does not exist" NotFound
     <-> recordExists s c = false) /\
  (forall f, snd r = inl f -> recordExists s c = false) /\
  (recordExists s c = true ->
     exists isValid,
       (isValid = true <-> dataHash (records_at s c) = h) /\
       snd r = inr (Verified isValid (issuer (records_at s c))
                      (issuerName (records_at s c))
                      (timestamp (records_at s c))
                      (blockNumber (records_at s c)),
                    [RecordVerified c isValid]) /\
       getRecord s c =
         (dataHash (records_at s c), issuer (records_at s c),
          issuerName (records_at s c), timestamp (records_at s c),
          blockNumber (records_at s c), true)) /\
  fst r = s.
Proof.
  cbv zeta. unfold recordExists, fails_with, getRecord.
  rewrite exec_verifyRecord.
  destruct (exists_ (records_at s c)) eqn:Hex; cbn [fst snd].
  - repeat split; try discriminate.
    + intros [? _]; discriminate.
    + intros _. exists (dataHash (records_at s c) =? h).
      repeat split; by apply N.eqb_eq.
  - repeat split; try discriminate; try reflexivity.
Qed.



(** C4. [generateDataHash] is [keccak256] of the six fields, in their order,
    one after the other with nothing between them: it depends on nothing but
    this concatenation, exchanging two fields changes the hash, and moving
    the boundary between two adjacent fields does not, so that
    ("AB", "C", ...) and ("A", "BC", ...) are distinct inputs with one hash. *)
Theorem generateDataHash_undelimited :
  (forall n r d b y c,
     generateDataHash n r d b y c =
     keccak256 (String.append n (String.append r (String.append d
                 (String.append b (String.append y c)))))) /\
  (forall n r d b y c n' r' d' b' y' c',
     abi_encodePacked [n; r; d; b; y; c] = abi_encodePacked [n'; r'; d'; b'; y'; c'] ->
     generateDataHash n r d b y c = generateDataHash n' r' d' b' y' c') /\
  generateDataHash "A" "B" "D" "E" "F" "G" <> generateDataHash "B" "A" "D" "E" "F" "G" /\
  (forall x y z d b yr c,
     generateDataHash (String.append x y) z d b yr c =
     generateDataHash x (String.append y z) d b yr c) /\
  (forall d b yr c,
     ("AB"%string, "C"%string) <> ("A"%string, "BC"%string) /\
     generateDataHash "AB" "C" d b yr c = generateDataHash "A" "BC" d b yr c).
Proof.
  split_and!.
  - intros n r d b y c. unfold generateDataHash. cbn [abi_encodePacked].
    by rewrite append_empty_r.
  - intros n r d b y c n' r' d' b' y' c' H. unfold generateDataHash. by rewrite H.
  - apply N.eqb_neq. vm_compute. reflexivity.
  - intros x y z d b yr c. unfold generateDataHash.
    by rewrite abi_encodePacked_boundary.
  - intros d b yr c. split; [discriminate|].
    unfold generateDataHash. f_equal.
Qed.

(** C5. A successful [revokeIssuer] writes the issuer's authorization flag and
    nothing else: the issuer is no longer authorized, every other flag, every
    stored name (the issuer's too), every record (so also the name snapshot
    [getRecord(certId).issuerName] of a record the issuer created), the
    owner, the index and the counter are as before. *)
Theorem revokeIssuer_frame (s : Storage) (e : Env) (i : address)
    (out : ReturnData * list Event) :
  snd (exec e (RevokeIssuer i) s) = inr out ->
  let s' := fst (exec e (RevokeIssuer i) s) in
  isAuthorizedIssuer s' i = false /\
  (forall a, a <> i -> isAuthorizedIssuer s' a = isAuthorizedIssuer s a) /\
  issuerNames s' = issuerNames s /\
  getIssuerName s' i = getIssuerName s i /\
  records s' = records s /\
  (forall c, getRecord s' c = getRecord s c) /\
  owner s' = owner s /\
  getAllCertificateIds s' = getAllCertificateIds s /\
  getTotalRecords s' = getTotalRecords s.
Proof.
  cbv zeta. rewrite exec_revokeIssuer.
  destruct (msg_sender e =? owner s); cbn [negb fst snd]; [|discriminate].
  destruct (authorizedIssuers_at s i); cbn [negb fst snd]; [|discriminate].
  destruct (i =? owner s); cbn [fst snd]; [discriminate|]. intros _.
  unfold isAuthorizedIssuer. repeat split.
  - rewrite authorizedIssuers_at_set. destruct (decide (i = i)); congruence.
  - intros a Ha. rewrite authorizedIssuers_at_set.
    destruct (decide (i = a)); congruence.
Qed.

Lemma revokeIssuer_frame_witness :
  let s := run Tests.setUp
    [ (Tests.as_ Tests.owner_, AuthorizeIssuer Tests.issuer1 "College of Engineering");
      (Tests.as_ Tests.issuer1, AddAlumniRecord "CERT-001" 11) ] in
  let s' := fst (exec (Tests.as_ Tests.owner_) (RevokeIssuer Tests.issuer1) s) in
  isAuthorizedIssuer s' Tests.issuer1 = false /\
  getRecord s' "CERT-001" = (11, Tests.issuer1, "College of Engineering"%string, 1, 1, true).
Proof.
  intros s s'.
  destruct (revokeIssuer_frame s (Tests.as_ Tests.owner_) Tests.issuer1
              (NoData, [IssuerRevoked Tests.issuer1]))
    as (Hflag & _ & _ & _ & _ & Hrec & _).
  - reflexivity.
  - split; [exact Hflag|]. fold s' in Hrec. rewrite Hrec. reflexivity.
Defined.

(** C6. In every storage reachable from deployment the owner is an authorized
    issuer.  The constructor authorizes the deployer it makes owner, a
    successful [transferOwnership] leaves the new owner authorized, and
    [revokeIssuer] of the current owner fails for every caller, with "Cannot
    revoke owner" when the caller is the owner. *)
Theorem owner_is_authorized (s : Storage) :
  reachable s ->
  isAuthorizedIssuer s (owner s) = true /\
  (forall e n, owner (deploy e n) = msg_sender e /\
               isAuthorizedIssuer (deploy e n) (msg_sender e) = true) /\
  (forall e n out, snd (exec e (TransferOwnership n) s) = inr out ->
     owner (fst (exec e (TransferOwnership n) s)) = n /\
     isAuthorizedIssuer (fst (exec e (TransferOwnership n) s)) n = true) /\
  (forall e, exists reason,
     snd (exec e (RevokeIssuer (owner s)) s) = inl (Revert reason) /\
     fst (exec e (RevokeIssuer (owner s)) s) = s /\
     (msg_sender e = owner s -> reason = "Cannot revoke owner"%string)).
Proof.
  intros Hreach. pose proof (reachable_invariant s Hreach) as [Hown _ _ _].
  unfold isAuthorizedIssuer. split; [exact Hown|]. split; [|split].
  - intros e n. split; [reflexivity|]. apply invariant_deploy.
  - intros e n out Hok.
    pose proof (reachable_invariant _ (reachable_exec s e (TransferOwnership n) Hreach))
      as [Hown' _ _ _].
    assert (Ho : owner (fst (exec e (TransferOwnership n) s)) = n).
    { revert Hok. rewrite exec_transferOwnership.
      destruct (msg_sender e =? owner s); cbn [negb fst snd]; [|discriminate].
      destruct (n =? 0); cbn [fst snd]; [discriminate|].
      destruct (n =? owner s); cbn [fst snd]; [discriminate|].
      destruct (authorizedIssuers_at s n); reflexivity. }
    split; [exact Ho|]. rewrite Ho in Hown'. exact Hown'.
  - intros e. rewrite exec_revokeIssuer, Hown, N.eqb_refl. cbn [negb].
    destruct (N.eqb_spec (msg_sender e) (owner s)); cbn [negb fst snd].
    + exists "Cannot revoke owner"%string. by repeat split.
    + exists "Only owner can call this function"%string.
      repeat split. congruence.
Qed.

Lemma owner_is_authorized_witness :
  let s := fst (exec (Tests.as_ Tests.owner_) (TransferOwnership Tests.issuer2) Tests.setUp) in
  owner s = Tests.issuer2 /\ isAuthorizedIssuer s Tests.issuer2 = true.
Proof.
  intros s. split; [reflexivity|].
  apply (owner_is_authorized s). apply reachable_exec, reachable_deploy.
Defined.

(** C7. [transferOwnership newOwner] succeeds only for the owner: another
    caller gets "Only owner can call this function" (Unauthorized).  For the
    owner it fails with "Invalid new owner address" (InvalidInput) when
    [newOwner] is [address(0)], and with "Already the owner" (NoOp) when
    [newOwner] is the non-null current owner.  Otherwise it succeeds: the
    owner becomes [newOwner], which is an authorized issuer afterwards, no
    stored name and no other flag changes, and from then on [authorizeIssuer]
    of a non-null, not yet authorized issuer succeeds for [newOwner] and
    fails with Unauthorized for the prior owner. *)
Theorem transferOwnership_spec (s : Storage) (e : Env) (n : address) :
  let r := exec e (TransferOwnership n) s in
  (forall out, snd r = inr out -> msg_sender e = owner s) /\
  (msg_sender e <> owner s ->
     fails_with (snd r) "Only owner can call this function" Unauthorized) /\
  (msg_sender e = owner s -> n = 0 ->
     fails_with (snd r) "Invalid new owner address" InvalidInput) /\
  (msg_sender e = owner s -> n <> 0 -> n = owner s ->
     fails_with (snd r) "Already the owner" NoOp) /\
  (msg_sender e = owner s -> n <> 0 -> n <> owner s ->
     snd r = inr (NoData, []) /\
     owner (fst r) = n /\
     isAuthorizedIssuer (fst r) n = true /\
     (forall a, a <> n -> isAuthorizedIssuer (fst r) a = isAuthorizedIssuer s a) /\
     issuerNames (fst r) = issuerNames s /\
     records (fst r) = records s /\
     certificateIds (fst r) = certificateIds s /\
     totalRecords (fst r) = totalRecords s /\
     (forall e' i name,
        msg_sender e' = n -> i <> 0 -> isAuthorizedIssuer (fst r) i = false ->
        snd (exec e' (AuthorizeIssuer i name) (fst r))
        = inr (NoData, [IssuerAuthorized i name])) /\
     (forall e' i name,
        msg_sender e' = owner s ->
        fails_with (snd (exec e' (AuthorizeIssuer i name) (fst r)))
          "Only owner can call this function" Unauthorized)).
Proof.
  cbv zeta. unfold fails_with, isAuthorizedIssuer.
  rewrite exec_transferOwnership.
  split; [|split; [|split; [|split]]].
  - intros out. destruct (N.eqb_spec (msg_sender e) (owner s)); [done|discriminate].
  - intros Hne. destruct (N.eqb_spec (msg_sender e) (owner s)); [done|by split].
  - intros -> ->. rewrite N.eqb_refl. by split.
  - intros -> Hn ->. rewrite N.eqb_refl.
    destruct (N.eqb_spec (owner s) 0); [done|by split].
  - intros -> Hn Hne. rewrite N.eqb_refl. cbn [negb].
    destruct (N.eqb_spec n 0); [done|].
    destruct (N.eqb_spec n (owner s)); [done|].
    assert (Hnames : forall t, authorizedIssuers_at t n = true ->
              owner t = n -> forall e' i name,
              (msg_sender e' = n -> i <> 0 -> authorizedIssuers_at t i = false ->
               snd (exec e' (AuthorizeIssuer i name) t)
               = inr (NoData, [IssuerAuthorized i name])) /\
              (msg_sender e' = owner s ->
               snd (exec e' (AuthorizeIssuer i name) t)
               = inl (Revert "Only owner can call this function"))).
    { intros t _ Ho e' i name. rewrite exec_authorizeIssuer, Ho. split.
      - intros -> Hi Hfree. rewrite N.eqb_refl, Hfree. cbn [negb].
        destruct (N.eqb_spec i 0); [done|reflexivity].
      - intros ->. destruct (N.eqb_spec (owner s) n); [congruence|reflexivity]. }
    destruct (authorizedIssuers_at s n) eqn:Hauth; cbn [fst snd].
    + split_and!; try done.
      * intros e' i name. by apply (Hnames (set_owner n s)).
      * intros e' i name Ho. split; [by apply (Hnames (set_owner n s))|done].
    + assert (Hset : authorizedIssuers_at (set_authorizedIssuer n true (set_owner n s)) n = true).
      { rewrite authorizedIssuers_at_set. by destruct (decide (n = n)). }
      split_and!; try done.
      * intros a Ha. rewrite authorizedIssuers_at_set.
        destruct (decide (n = a)); [congruence|reflexivity].
      * intros e' i name. by apply (Hnames _ Hset).
      * intros e' i name Ho. split; [by apply (Hnames _ Hset)|done].
Qed.

(** C8. After any trace of calls from deployment (these are the reachable
    storages, [reachable_iff_run]), [getAllCertificateIds] is the list of the
    certificate ids whose creation succeeded, in the order of creation, and
    its length is [getTotalRecords]; whatever calls follow only append to
    it. *)
Theorem getAllCertificateIds_history (e0 : Env) (name : string)
    (txs : list (Env * Call)) :
  let s := run (deploy e0 name) txs in
  reachable s /\
  getAllCertificateIds s = created (deploy e0 name) txs /\
  N.of_nat (length (getAllCertificateIds s)) = getTotalRecords s /\
  (forall more,
     getAllCertificateIds (run s more) = getAllCertificateIds s ++ created s more).
Proof.
  cbv zeta. unfold getAllCertificateIds, getTotalRecords. split_and!.
  - apply reachable_run, reachable_deploy.
  - rewrite certificateIds_run. reflexivity.
  - apply reachable_invariant, reachable_run, reachable_deploy.
  - intros more. apply certificateIds_run.
Qed.

(** C9. A call that fails leaves the storage as it was: owner, authorization
    map, issuer names, records, index and counter.  A failing [require] is
    met before the body has written anything, and what the body wrote before
    an arithmetic panic is rolled back.  The failure reaches the caller as a
    revert reason of one of the kinds the specification lists for the
    operation; the only other failure is the panic 0x11 of the checked
    increment in [addAlumniRecord], when the counter holds the largest
    [uint256]. *)
Theorem failure_is_atomic (e : Env) (c : Call) (s : Storage) (f : Failure) :
  snd (exec e c s) = inl f ->
  fst (exec e c s) = s /\
  (exists s_at, dispatch e c s = Failed f s_at /\
     (forall reason, f = Revert reason -> s_at = s)) /\
  ((exists reason k,
      f = Revert reason /\ spec_kind reason = Some k /\ k ∈ spec_failure_kinds c) \/
   (f = Panic 0x11 /\ getTotalRecords s = MAX_UINT256 /\
    exists cid h, c = AddAlumniRecord cid h)).
Proof.
  unfold exec, call, dispatch, returning, getTotalRecords.
  destruct c as [i n|i|n|cid h|cid h].
  - rewrite authorizeIssuer_body.
    destruct (msg_sender e =? owner s), (i =? 0), (authorizedIssuers_at s i);
      cbn [negb]; failed_call.
  - rewrite revokeIssuer_body.
    destruct (msg_sender e =? owner s), (authorizedIssuers_at s i), (i =? owner s);
      cbn [negb]; failed_call.
  - rewrite transferOwnership_body.
    destruct (msg_sender e =? owner s), (n =? 0), (n =? owner s),
      (authorizedIssuers_at s n); cbn [negb]; failed_call.
  - rewrite addAlumniRecord_body.
    destruct (authorizedIssuers_at s (msg_sender e)); cbn [negb]; [|failed_call].
    destruct (exists_ (records_at s cid)); [failed_call|].
    destruct (0 <? String.length cid)%nat; cbn [negb]; [|failed_call].
    destruct (h =? 0); [failed_call|].
    destruct (N.eqb_spec (totalRecords s) MAX_UINT256) as [Hmax|Hlt]; [|failed_call].
    intros [= <-]. cbn [fst]. split; [reflexivity|]. split.
    + eexists. split; [reflexivity|]. intros reason [=].
    + right. split; [reflexivity|]. split; [exact Hmax|]. by exists cid, h.
  - rewrite verifyRecord_body.
    destruct (exists_ (records_at s cid)); failed_call.
Qed.

Lemma failure_is_atomic_witness :
  fst (exec (Tests.as_ Tests.unauthorized) (AddAlumniRecord "CERT-001" 11) Tests.setUp)
  = Tests.setUp /\
  exists reason,
    Revert "Not an authorized issuer" = Revert reason /\
    spec_kind reason = Some Unauthorized.
Proof.
  destruct (failure_is_atomic (Tests.as_ Tests.unauthorized)
              (AddAlumniRecord "CERT-001" 11) Tests.setUp
              (Revert "Not an authorized issuer") eq_refl)
    as (Hsame & _ & [(reason & k & Hf & Hk & _)|(Hf & _)]).
  - split; [exact Hsame|]. exists reason. split; [exact Hf|].
    injection Hf as <-. reflexivity.
  - discriminate Hf.
Defined.

(** C10. [addAlumniRecord] checks the caller's authorization first, then the
    duplicate key, then the inputs.  An unauthorized caller gets "Not an
    authorized issuer" whatever the arguments; an authorized caller gets
    "Certificate ID already exists" for a [certId] of the ledger whatever the
    hash, the zero hash included; only for a new [certId] are the empty
    [certId] and the zero hash reported, in this order. *)
Theorem addAlumniRecord_check_order (s : Storage) (e : Env) (c : string) (h : bytes32) :
  let r := snd (exec e (AddAlumniRecord c h) s) in
  (isAuthorizedIssuer s (msg_sender e) = false ->
     fails_with r "Not an authorized issuer" Unauthorized) /\
  (isAuthorizedIssuer s (msg_sender e) = true -> recordExists s c = true ->
     fails_with r "Certificate ID already exists" AlreadyExists /\
     fails_with (snd (exec e (AddAlumniRecord c 0) s))
       "Certificate ID already exists" AlreadyExists) /\
  (isAuthorizedIssuer s (msg_sender e) = true -> recordExists s c = false ->
     c = EmptyString ->
     fails_with r "Certificate ID cannot be empty" InvalidInput) /\
  (isAuthorizedIssuer s (msg_sender e) = true -> recordExists s c = false ->
     c <> EmptyString -> h = 0 ->
     fails_with r "Data hash cannot be empty" InvalidInput).
Proof.
  cbv zeta. unfold isAuthorizedIssuer, recordExists, fails_with.
  rewrite !exec_addAlumniRecord.
  split; [|split; [|split]].
  - intros ->. by split.
  - intros -> ->. by repeat split.
  - intros -> -> ->. by split.
  - intros -> -> Hc ->. rewrite (nonempty_length c Hc). by split.
Qed.


(** * Part V: further properties of the contract and its scripts *)

(** X1. A record that exists is never written again: whatever calls follow,
    by whatever callers, [getRecord] and [recordExists] answer for its
    [certId] what they answered before. *)
Theorem record_is_immutable (s : Storage) (txs : list (Env * Call)) (c : string) :
  recordExists s c = true ->
  getRecord (run s txs) c = getRecord s c /\
  recordExists (run s txs) c = true.
Proof.
  unfold recordExists, getRecord. intros Hex.
  by rewrite (records_at_run s txs c Hex).
Qed.

Lemma record_is_immutable_witness :
  let s := fst (exec (Tests.as_ Tests.owner_) (AddAlumniRecord "CERT-001" 11) Tests.setUp) in
  let later := run s
    [ (Tests.as_ Tests.owner_, AddAlumniRecord "CERT-001" 12);
      (Tests.as_ Tests.owner_, TransferOwnership Tests.issuer2);
      (Tests.as_ Tests.issuer2, RevokeIssuer Tests.owner_) ] in
  getRecord later "CERT-001" = (11, Tests.owner_, "Test University"%string, 1, 1, true).
Proof.
  intros s later.
  destruct (record_is_immutable s
              [ (Tests.as_ Tests.owner_, AddAlumniRecord "CERT-001" 12);
                (Tests.as_ Tests.owner_, TransferOwnership Tests.issuer2);
                (Tests.as_ Tests.issuer2, RevokeIssuer Tests.owner_) ] "CERT-001")
    as [Hrec _]; [reflexivity|].
  fold later in Hrec. rewrite Hrec. reflexivity.
Defined.

(** ** Well-formed ledgers *)

Lemma ledger_wf_deploy (e : Env) (n : string) : ledger_wf (deploy e n).
Proof.
  unfold deploy, call. rewrite constructor_body. cbn [fst]. split.
  - intros c r.
    cbn [records set_issuerName set_authorizedIssuer set_owner empty_storage].
    by rewrite lookup_empty.
  - cbn. unfold MAX_UINT256. lia.
Qed.

Lemma ledger_wf_exec (e : Env) (op : Call) (s : Storage) :
  ledger_wf s -> ledger_wf (fst (exec e op s)).
Proof.
  intros [Hent Hcnt]. destruct op as [i n|i|n|cid h|cid h].
  - rewrite exec_authorizeIssuer.
    by destruct (msg_sender e =? owner s), (i =? 0), (authorizedIssuers_at s i).
  - rewrite exec_revokeIssuer.
    by destruct (msg_sender e =? owner s), (authorizedIssuers_at s i), (i =? owner s).
  - rewrite exec_transferOwnership.
    by destruct (msg_sender e =? owner s), (n =? 0), (n =? owner s),
      (authorizedIssuers_at s n).
  - rewrite exec_addAlumniRecord.
    destruct (authorizedIssuers_at s (msg_sender e)); [|done].
    destruct (exists_ (records_at s cid)); [done|].
    destruct (0 <? String.length cid)%nat eqn:Hlen; [|done].
    destruct (N.eqb_spec h 0); [done|].
    destruct (N.eqb_spec (totalRecords s) MAX_UINT256); [done|]. cbn [negb fst].
    split.
    + intros c r.
      cbn [records set_totalRecords push_certificateId set_record].
      rewrite lookup_insert. destruct (decide (cid = c)) as [<-|Hne].
      * intros [= <-]. cbn. split_and!; try done. intros ->. discriminate.
      * apply Hent.
    + cbn [totalRecords set_totalRecords]. lia.
  - rewrite exec_verifyRecord. by destruct (exists_ (records_at s cid)).
Qed.

Lemma reachable_ledger_wf (s : Storage) : reachable s -> ledger_wf s.
Proof.
  induction 1 as [e n|s e c _ IH]; [apply ledger_wf_deploy | by apply ledger_wf_exec].
Qed.

Lemma records_at_Some (s : Storage) (c : string) :
  exists_ (records_at s c) = true -> records s !! c = Some (records_at s c).
Proof.
  unfold records_at. destruct (records s !! c); [done | discriminate].
Qed.

(** X2. In a reachable ledger a [certId] without record reads as the all-zero
    record: [getRecord] returns zero hash, null issuer, empty name, zero
    timestamp and block number and [exists = false]; the [certId] is not in
    the index, and [verifyRecord] reverts for every candidate hash. *)
Theorem absent_record_is_default (s : Storage) (c : string) :
  reachable s ->
  recordExists s c = false ->
  getRecord s c = (0, 0, EmptyString, 0, 0, false) /\
  (c ∉ getAllCertificateIds s) /\
  (forall e h, exec e (VerifyRecord c h) s =
               (s, inl (Revert "Certificate ID does not exist"))).
Proof.
  unfold recordExists, getRecord, getAllCertificateIds. intros Hreach Habs.
  pose proof (reachable_ledger_wf s Hreach) as [Hent _].
  pose proof (reachable_invariant s Hreach) as [_ _ Hidx _].
  assert (Hnone : records s !! c = None).
  { destruct (records s !! c) as [r|] eqn:Hr; [|done].
    destruct (Hent c r Hr) as [Hex _]. unfold records_at in Habs.
    rewrite Hr in Habs. cbn in Habs. congruence. }
  split_and!.
  - unfold records_at. by rewrite Hnone.
  - intros Hin%Hidx. congruence.
  - intros e h. by rewrite exec_verifyRecord, Habs.
Qed.

Lemma absent_record_is_default_witness :
  getRecord Tests.setUp "NON-EXISTENT" = (0, 0, EmptyString, 0, 0, false).
Proof.
  apply (absent_record_is_default Tests.setUp "NON-EXISTENT");
    [apply reachable_deploy | reflexivity].
Defined.

(** X3. In a reachable ledger every existing record is well formed: its key
    is not empty, the [certId] it stores is its key, its hash is not the zero
    sentinel, and the key is in the index.  So [verifyRecord] with the zero
    hash succeeds with [isValid = false] for every existing record. *)
Theorem stored_record_wellformed (s : Storage) (c : string) :
  reachable s ->
  recordExists s c = true ->
  c <> EmptyString /\
  certId (records_at s c) = c /\
  dataHash (records_at s c) <> 0 /\
  c ∈ getAllCertificateIds s /\
  (forall e, exists i n ts bn,
     snd (exec e (VerifyRecord c 0) s) =
     inr (Verified false i n ts bn, [RecordVerified c false])).
Proof.
  unfold recordExists, getAllCertificateIds. intros Hreach Hex.
  pose proof (reachable_ledger_wf s Hreach) as [Hent _].
  pose proof (reachable_invariant s Hreach) as [_ _ Hidx _].
  destruct (Hent c _ (records_at_Some s c Hex)) as (_ & Hid & Hc & Hh).
  split_and!; try done.
  - by apply Hidx.
  - intros e. rewrite exec_verifyRecord, Hex. cbn [snd].
    destruct (N.eqb_spec (dataHash (records_at s c)) 0); [done|]. by eexists _, _, _, _.
Qed.

Lemma stored_record_wellformed_witness :
  let s := fst (exec (Tests.as_ Tests.owner_) (AddAlumniRecord "CERT-001" 11) Tests.setUp) in
  dataHash (records_at s "CERT-001") <> 0 /\ "CERT-001" ∈ getAllCertificateIds s.
Proof.
  intros s.
  destruct (stored_record_wellformed s "CERT-001") as (_ & _ & Hh & Hin & _).
  - apply reachable_exec, reachable_deploy.
  - reflexivity.
  - by split.
Defined.

(** X4. In a reachable ledger the index lists exactly the [certId]s that have
    a record, each once, and the counter fits a [uint256]. *)
Theorem index_lists_records_once (s : Storage) :
  reachable s ->
  (forall c, c ∈ getAllCertificateIds s <-> recordExists s c = true) /\
  NoDup (getAllCertificateIds s) /\
  (forall c, recordExists s c = true ->
     count_occ string_dec (getAllCertificateIds s) c = 1%nat) /\
  getTotalRecords s <= MAX_UINT256.
Proof.
  intros Hreach.
  pose proof (reachable_ledger_wf s Hreach) as [_ Hcnt].
  pose proof (reachable_invariant s Hreach) as [_ _ Hidx Hnd].
  unfold getAllCertificateIds, recordExists, getTotalRecords. split_and!; try done.
  intros c Hex. apply count_occ_NoDup_1; [done | by apply Hidx].
Qed.

Lemma index_lists_records_once_witness :
  let s := run Tests.setUp
    [ (Tests.as_ Tests.owner_, AddAlumniRecord "CERT-001" 11);
      (Tests.as_ Tests.owner_, AddAlumniRecord "CERT-001" 12);
      (Tests.as_ Tests.owner_, AddAlumniRecord "CERT-002" 12) ] in
  NoDup (getAllCertificateIds s) /\ getTotalRecords s <= MAX_UINT256.
Proof.
  intros s.
  destruct (index_lists_records_once s) as (_ & Hnd & _ & Hcnt).
  - apply reachable_run, reachable_deploy.
  - by split.
Defined.

(** ** Who can write what *)

(** X5. A caller that is neither the owner nor an authorized issuer cannot
    change the storage: each of the five state-changing functions leaves
    owner, authorizations, names, records, index and counter as they were,
    and only [verifyRecord] can succeed. *)
Theorem stranger_cannot_write (s : Storage) (e : Env) (op : Call) :
  msg_sender e <> owner s ->
  isAuthorizedIssuer s (msg_sender e) = false ->
  fst (exec e op s) = s /\
  (forall out, snd (exec e op s) = inr out -> exists c h, op = VerifyRecord c h).
Proof.
  unfold isAuthorizedIssuer. intros Hown Hauth.
  destruct op as [i n|i|n|cid h|cid h].
  - rewrite exec_authorizeIssuer.
    destruct (N.eqb_spec (msg_sender e) (owner s)); [done|]. by split.
  - rewrite exec_revokeIssuer.
    destruct (N.eqb_spec (msg_sender e) (owner s)); [done|]. by split.
  - rewrite exec_transferOwnership.
    destruct (N.eqb_spec (msg_sender e) (owner s)); [done|]. by split.
  - rewrite exec_addAlumniRecord, Hauth. by split.
  - rewrite exec_verifyRecord. split.
    + by destruct (exists_ (records_at s cid)).
    + intros _ _. by exists cid, h.
Qed.

Lemma stranger_cannot_write_witness :
  fst (exec (Tests.as_ Tests.unauthorized) (TransferOwnership Tests.unauthorized) Tests.setUp)
  = Tests.setUp.
Proof.
  apply (stranger_cannot_write Tests.setUp (Tests.as_ Tests.unauthorized));
    [discriminate | reflexivity].
Defined.

(** X6. The registry changes only through the owner's calls.  An address
    gains authorization only by the owner's [authorizeIssuer] of it or the
    owner's [transferOwnership] to it, and loses it only by the owner's
    [revokeIssuer] of it, never the owner's own; a stored name changes only
    by the owner's [authorizeIssuer]; the owner changes only by the owner's
    [transferOwnership]. *)
Theorem registry_changes_only_by_owner (s : Storage) (e : Env) (op : Call) (a : address) :
  let s' := fst (exec e op s) in
  (isAuthorizedIssuer s a = false -> isAuthorizedIssuer s' a = true ->
     msg_sender e = owner s /\
     ((exists n, op = AuthorizeIssuer a n) \/ op = TransferOwnership a)) /\
  (isAuthorizedIssuer s a = true -> isAuthorizedIssuer s' a = false ->
     msg_sender e = owner s /\ op = RevokeIssuer a /\ a <> owner s) /\
  (getIssuerName s' a <> getIssuerName s a ->
     msg_sender e = owner s /\ op = AuthorizeIssuer a (getIssuerName s' a)) /\
  (owner s' <> owner s ->
     msg_sender e = owner s /\ op = TransferOwnership (owner s')).
Proof.
  cbv zeta. unfold isAuthorizedIssuer, getIssuerName.
  destruct op as [i n|i|n|cid h|cid h].
  - rewrite exec_authorizeIssuer.
    destruct (N.eqb_spec (msg_sender e) (owner s)) as [Ho|Ho]; cbn [negb];
      [|registry_case].
    destruct (N.eqb_spec i 0); [registry_case|].
    destruct (authorizedIssuers_at s i) eqn:Hi; registry_case.
  - rewrite exec_revokeIssuer.
    destruct (N.eqb_spec (msg_sender e) (owner s)) as [Ho|Ho]; cbn [negb];
      [|registry_case].
    destruct (authorizedIssuers_at s i) eqn:Hi; cbn [negb]; [|registry_case].
    destruct (N.eqb_spec i (owner s)); registry_case.
  - rewrite exec_transferOwnership.
    destruct (N.eqb_spec (msg_sender e) (owner s)) as [Ho|Ho]; cbn [negb];
      [|registry_case].
    destruct (N.eqb_spec n 0); [registry_case|].
    destruct (N.eqb_spec n (owner s)); [registry_case|].
    destruct (authorizedIssuers_at s n) eqn:Hn; registry_case.
  - rewrite exec_addAlumniRecord.
    destruct (authorizedIssuers_at s (msg_sender e)), (exists_ (records_at s cid)),
      (0 <? String.length cid)%nat, (h =? 0), (totalRecords s =? MAX_UINT256);
      cbn [negb]; registry_case.
  - rewrite exec_verifyRecord.
    destruct (exists_ (records_at s cid)); registry_case.
Qed.

(** X7. [authorizeIssuer] checks, in this order, that the caller is the
    owner, that the issuer is not [address(0)] and that it is not authorized
    yet.  On success it authorizes the issuer and stores the name, replacing
    the name a revoked issuer had before; no other flag or name, no record,
    not the owner, the index or the counter changes, and one
    [IssuerAuthorized] event is emitted. *)
Theorem authorizeIssuer_spec (s : Storage) (e : Env) (i : address) (n : string) :
  let r := exec e (AuthorizeIssuer i n) s in
  (msg_sender e <> owner s ->
     r = (s, inl (Revert "Only owner can call this function"))) /\
  (msg_sender e = owner s -> i = 0 ->
     r = (s, inl (Revert "Invalid issuer address"))) /\
  (msg_sender e = owner s -> i <> 0 -> isAuthorizedIssuer s i = true ->
     r = (s, inl (Revert "Issuer already authorized"))) /\
  (msg_sender e = owner s -> i <> 0 -> isAuthorizedIssuer s i = false ->
     snd r = inr (NoData, [IssuerAuthorized i n]) /\
     isAuthorizedIssuer (fst r) i = true /\
     getIssuerName (fst r) i = n /\
     (forall a, a <> i ->
        isAuthorizedIssuer (fst r) a = isAuthorizedIssuer s a /\
        getIssuerName (fst r) a = getIssuerName s a) /\
     owner (fst r) = owner s /\
     records (fst r) = records s /\
     certificateIds (fst r) = certificateIds s /\
     totalRecords (fst r) = totalRecords s).
Proof.
  cbv zeta. unfold isAuthorizedIssuer, getIssuerName. rewrite exec_authorizeIssuer.
  split_and!.
  - intros Ho. by destruct (N.eqb_spec (msg_sender e) (owner s)).
  - intros -> ->. by rewrite N.eqb_refl.
  - intros -> Hi ->. rewrite N.eqb_refl. by destruct (N.eqb_spec i 0).
  - intros -> Hi Hfree. rewrite N.eqb_refl, Hfree.
    destruct (N.eqb_spec i 0); [done|]. cbn [negb fst snd].
    unfold authorizedIssuers_at, issuerNames_at.
    cbn [authorizedIssuers issuerNames set_issuerName set_authorizedIssuer].
    split_and!; try done.
    + by rewrite lookup_insert_eq.
    + by rewrite lookup_insert_eq.
    + intros a Ha. by rewrite !lookup_insert_ne.
Qed.

(** X8. The issuer name of a record is the name its issuer had when the
    record was created: whatever calls follow (the issuer revoked, authorized
    again under another name, the ownership transferred), [getRecord] returns
    the record with that name. *)
Theorem issuerName_snapshot_persists (s : Storage) (e : Env) (c : string) (h : bytes32)
    (txs : list (Env * Call)) :
  isAuthorizedIssuer s (msg_sender e) = true ->
  recordExists s c = false ->
  c <> EmptyString -> h <> 0 ->
  getTotalRecords s < MAX_UINT256 ->
  getRecord (run (fst (exec e (AddAlumniRecord c h) s)) txs) c =
    (h, msg_sender e, getIssuerName s (msg_sender e),
     block_timestamp e, block_number e, true).
Proof.
  unfold isAuthorizedIssuer, recordExists, getTotalRecords, getIssuerName.
  intros Hauth Hfresh Hc Hh Hroom.
  rewrite exec_addAlumniRecord_ok by assumption. cbn [fst].
  assert (Hnow : getRecord (added e s c h) c =
                 (h, msg_sender e, issuerNames_at s (msg_sender e),
                  block_timestamp e, block_number e, true)).
  { unfold getRecord. rewrite records_at_added. by destruct (decide (c = c)). }
  unfold getRecord in *. rewrite records_at_run; [done|].
  rewrite records_at_added. by destruct (decide (c = c)).
Qed.

Lemma issuerName_snapshot_persists_witness :
  let s := fst (exec (Tests.as_ Tests.owner_)
                  (AuthorizeIssuer Tests.issuer1 "College of Engineering") Tests.setUp) in
  let later := run (fst (exec (Tests.as_ Tests.issuer1) (AddAlumniRecord "CERT-001" 11) s))
    [ (Tests.as_ Tests.owner_, RevokeIssuer Tests.issuer1);
      (Tests.as_ Tests.owner_, AuthorizeIssuer Tests.issuer1 "College of Science") ] in
  getIssuerName later Tests.issuer1 = "College of Science"%string /\
  getRecord later "CERT-001" =
    (11, Tests.issuer1, "College of Engineering"%string, 1, 1, true).
Proof.
  intros s later. split; [reflexivity|].
  apply (issuerName_snapshot_persists s (Tests.as_ Tests.issuer1) "CERT-001" 11);
    [reflexivity | reflexivity | discriminate | discriminate | reflexivity].
Defined.


(** X9. A transfer of ownership takes from the prior owner the owner's
    rights and nothing else: in a reachable ledger, after a successful
    [transferOwnership] the prior owner is still an authorized issuer, its
    [authorizeIssuer], [revokeIssuer] and [transferOwnership] calls revert
    with "Only owner can call this function", and the new owner can revoke
    it. *)
Theorem prior_owner_stays_issuer (s : Storage) (e : Env) (n : address)
    (out : ReturnData * list Event) :
  reachable s ->
  snd (exec e (TransferOwnership n) s) = inr out ->
  let s' := fst (exec e (TransferOwnership n) s) in
  n <> owner s /\ owner s' = n /\
  isAuthorizedIssuer s' (owner s) = true /\
  (forall e' op, msg_sender e' = owner s ->
     (forall c h, op <> AddAlumniRecord c h) -> (forall c h, op <> VerifyRecord c h) ->
     exec e' op s' = (s', inl (Revert "Only owner can call this function"))) /\
  (forall e', msg_sender e' = n ->
     snd (exec e' (RevokeIssuer (owner s)) s') = inr (NoData, [IssuerRevoked (owner s)]) /\
     isAuthorizedIssuer (fst (exec e' (RevokeIssuer (owner s)) s')) (owner s) = false).
Proof.
  intros Hreach. pose proof (reachable_invariant s Hreach) as [Hown _ _ _].
  cbv zeta. unfold isAuthorizedIssuer. rewrite exec_transferOwnership.
  destruct (N.eqb_spec (msg_sender e) (owner s)) as [Ho|Ho]; cbn [negb snd]; [|done].
  destruct (N.eqb_spec n 0); cbn [snd]; [done|].
  destruct (N.eqb_spec n (owner s)) as [|Hne]; cbn [snd]; [done|]. intros _.
  assert (Hgen : forall t, owner t = n -> authorizedIssuers_at t (owner s) = true ->
    (forall e' op, msg_sender e' = owner s ->
       (forall c h, op <> AddAlumniRecord c h) -> (forall c h, op <> VerifyRecord c h) ->
       exec e' op t = (t, inl (Revert "Only owner can call this function"))) /\
    (forall e', msg_sender e' = n ->
       snd (exec e' (RevokeIssuer (owner s)) t) = inr (NoData, [IssuerRevoked (owner s)]) /\
       authorizedIssuers_at (fst (exec e' (RevokeIssuer (owner s)) t)) (owner s) = false)).
  { intros t Ht Hauth. split.
    - intros e' op He' Hadd Hver. destruct op as [i m|i|m|c h|c h].
      + rewrite exec_authorizeIssuer, He', Ht.
        by destruct (N.eqb_spec (owner s) n); [congruence|].
      + rewrite exec_revokeIssuer, He', Ht.
        by destruct (N.eqb_spec (owner s) n); [congruence|].
      + rewrite exec_transferOwnership, He', Ht.
        by destruct (N.eqb_spec (owner s) n); [congruence|].
      + by destruct (Hadd c h).
      + by destruct (Hver c h).
    - intros e' He'. rewrite exec_revokeIssuer, He', Ht, N.eqb_refl, Hauth.
      cbn [negb]. destruct (N.eqb_spec (owner s) n); [congruence|]. cbn [fst snd].
      split; [done|]. rewrite authorizedIssuers_at_set.
      by destruct (decide (owner s = owner s)). }
  destruct (authorizedIssuers_at s n) eqn:Hn; cbn [fst].
  - split_and!; try done; by apply (Hgen (set_owner n s)).
  - assert (Hkeep : authorizedIssuers_at (set_authorizedIssuer n true (set_owner n s))
                      (owner s) = true).
    { rewrite authorizedIssuers_at_set. by destruct (decide (n = owner s)). }
    split_and!; try done;
      by apply (Hgen (set_authorizedIssuer n true (set_owner n s)) eq_refl Hkeep).
Qed.

Lemma prior_owner_stays_issuer_witness :
  let s' := fst (exec (Tests.as_ Tests.owner_) (TransferOwnership Tests.issuer2) Tests.setUp) in
  isAuthorizedIssuer s' Tests.owner_ = true /\
  isAuthorizedIssuer
    (fst (exec (Tests.as_ Tests.issuer2) (RevokeIssuer Tests.owner_) s')) Tests.owner_ = false.
Proof.
  intros s'.
  destruct (prior_owner_stays_issuer Tests.setUp (Tests.as_ Tests.owner_) Tests.issuer2
              (NoData, []))
    as (_ & _ & Hstill & _ & Hrev).
  - apply reachable_deploy.
  - reflexivity.
  - split; [exact Hstill|]. by apply (Hrev (Tests.as_ Tests.issuer2)).
Defined.

(** X10. [transferOwnership] to an address that is not an authorized issuer
    authorizes it without an [IssuerAuthorized] event and without a name:
    the call emits nothing and leaves the stored name of the new owner as it
    was, so a record the new owner then adds carries that name, the empty
    string if the address never had one. *)
Theorem transferOwnership_authorizes_silently (s : Storage) (e e' : Env) (n : address)
    (c : string) (h : bytes32) :
  msg_sender e = owner s -> n <> 0 -> n <> owner s ->
  isAuthorizedIssuer s n = false ->
  msg_sender e' = n ->
  recordExists s c = false -> c <> EmptyString -> h <> 0 ->
  getTotalRecords s < MAX_UINT256 ->
  let s1 := fst (exec e (TransferOwnership n) s) in
  let s2 := fst (exec e' (AddAlumniRecord c h) s1) in
  snd (exec e (TransferOwnership n) s) = inr (NoData, []) /\
  isAuthorizedIssuer s1 n = true /\
  getIssuerName s1 n = getIssuerName s n /\
  getRecord s2 c =
    (h, n, getIssuerName s n, block_timestamp e', block_number e', true).
Proof.
  unfold isAuthorizedIssuer, recordExists, getTotalRecords, getIssuerName.
  intros Ho Hn0 Hno Hn He' Hfresh Hc Hh Hroom. cbv zeta.
  rewrite exec_transferOwnership, Ho, N.eqb_refl, Hn. cbn [negb].
  destruct (N.eqb_spec n 0); [done|].
  destruct (N.eqb_spec n (owner s)); [done|]. cbn [fst snd].
  assert (Hauth : authorizedIssuers_at (set_authorizedIssuer n true (set_owner n s))
                    (msg_sender e') = true).
  { rewrite authorizedIssuers_at_set, He'. by destruct (decide (n = n)). }
  rewrite exec_addAlumniRecord_ok by assumption. cbn [fst].
  split_and!; try done.
  - by rewrite He' in Hauth.
  - unfold getRecord. rewrite records_at_added.
    destruct (decide (c = c)); [|done]. cbn. by rewrite He'.
Qed.

Lemma transferOwnership_authorizes_silently_witness :
  let s1 := fst (exec (Tests.as_ Tests.owner_) (TransferOwnership Tests.issuer2) Tests.setUp) in
  getRecord (fst (exec (Tests.as_ Tests.issuer2) (AddAlumniRecord "CERT-001" 11) s1)) "CERT-001"
  = (11, Tests.issuer2, EmptyString, 1, 1, true).
Proof.
  intros s1.
  apply (transferOwnership_authorizes_silently Tests.setUp (Tests.as_ Tests.owner_)
           (Tests.as_ Tests.issuer2) Tests.issuer2 "CERT-001" 11);
    first [reflexivity | discriminate].
Defined.

(** ** What a successful [addAlumniRecord] did *)

(** X11. [addAlumniRecord] returns [success = true] or reverts, never
    [false].  When it succeeds the caller was an authorized issuer, the
    [certId] was new and not empty and the hash not zero; the call stores the
    record under [certId] with the caller as issuer, the caller's registered
    name and the block's timestamp and number, returns these two, appends
    [certId] to the index, adds one to the counter, emits one
    [AlumniRecordAdded] event that carries the stored fields, and changes
    nothing else. *)
Theorem addAlumniRecord_success (s : Storage) (e : Env) (c : string) (h : bytes32)
    (out : ReturnData * list Event) :
  snd (exec e (AddAlumniRecord c h) s) = inr out ->
  let s' := fst (exec e (AddAlumniRecord c h) s) in
  (isAuthorizedIssuer s (msg_sender e) = true /\ recordExists s c = false /\
   c <> EmptyString /\ h <> 0 /\ getTotalRecords s <> MAX_UINT256) /\
  out = (Added true (block_timestamp e) (block_number e),
         [AlumniRecordAdded c h (msg_sender e) (getIssuerName s (msg_sender e))
            (block_timestamp e) (block_number e)]) /\
  map announced (snd out) = [Some (c, getRecord s' c)] /\
  getRecord s' c = (h, msg_sender e, getIssuerName s (msg_sender e),
                    block_timestamp e, block_number e, true) /\
  (forall c', c' <> c -> getRecord s' c' = getRecord s c') /\
  getAllCertificateIds s' = getAllCertificateIds s ++ [c] /\
  getTotalRecords s' = getTotalRecords s + 1 /\
  owner s' = owner s /\ authorizedIssuers s' = authorizedIssuers s /\
  issuerNames s' = issuerNames s.
Proof.
  cbv zeta.
  unfold isAuthorizedIssuer, recordExists, getTotalRecords, getIssuerName,
    getAllCertificateIds.
  rewrite exec_addAlumniRecord.
  destruct (authorizedIssuers_at s (msg_sender e)); cbn [negb snd]; [|done].
  destruct (exists_ (records_at s c)); cbn [snd]; [done|].
  destruct (0 <? String.length c)%nat eqn:Hlen; cbn [negb snd]; [|done].
  destruct (N.eqb_spec h 0); cbn [snd]; [done|].
  destruct (N.eqb_spec (totalRecords s) MAX_UINT256) as [|Hne]; cbn [fst snd]; [done|].
  intros [= <-].
  assert (Hrec : getRecord (added e s c h) c =
                 (h, msg_sender e, issuerNames_at s (msg_sender e),
                  block_timestamp e, block_number e, true)).
  { unfold getRecord. rewrite records_at_added. by destruct (decide (c = c)). }
  fold (added e s c h). split_and!; try done.
  - intros ->. discriminate.
  - cbn [snd map announced]. by rewrite Hrec.
  - intros c' Hc'. unfold getRecord. rewrite records_at_added.
    by destruct (decide (c = c')).
Qed.

Lemma addAlumniRecord_success_witness :
  getAllCertificateIds
    (fst (exec (Tests.as_ Tests.owner_) (AddAlumniRecord "CERT-001" 11) Tests.setUp))
  = ["CERT-001"%string].
Proof.
  destruct (addAlumniRecord_success Tests.setUp (Tests.as_ Tests.owner_) "CERT-001" 11
              (Added true 1 1,
               [AlumniRecordAdded "CERT-001" 11 Tests.owner_ "Test University" 1 1])
              eq_refl)
    as (_ & _ & _ & _ & _ & Hidx & _).
  exact Hidx.
Defined.

(** ** The events announce the ledger *)








(** ** The scripts *)



Lemma sample_hash_nonzero : Tests.sample_hash <> 0.
Proof. apply N.eqb_neq. vm_compute. reflexivity. Qed.

Lemma testAddRecord_body (e : Env) (s : Storage) :
  Script.testAddRecord e s =
    match addAlumniRecord e Tests.SAMPLE_CERT_ID Tests.sample_hash s with
    | Done r s' log =>
        if fst (fst r) then Done tt s' (log ++ [])
        else Failed (Revert "Failed to add record") s'
    | Failed f s' => Failed f s'
    end.
Proof.
  unfold Script.testAddRecord, bind, require, Tests.sample_hash, Tests.SAMPLE_CERT_ID.
  destruct (addAlumniRecord e _ _ s) as [[[ok ts] bn] s' log|f s'];
    [|reflexivity].
  destruct ok; reflexivity.
Qed.

(** X14. The script function [testAddRecord] adds the sample record:
    it reverts with "Not an authorized issuer" when the broadcaster is not an
    authorized issuer and with "Certificate ID already exists" when the
    sample certificate is in the ledger, so a second run always reverts; it
    never reverts with "Failed to add record" or with one of the two input
    errors of [addAlumniRecord].  Otherwise, the counter below its maximum,
    it stores the sample record. *)
Theorem testAddRecord_outcome (e : Env) (s : Storage) :
  let r := call (Script.testAddRecord e) s in
  (isAuthorizedIssuer s (msg_sender e) = false ->
     r = (s, inl (Revert "Not an authorized issuer"))) /\
  (isAuthorizedIssuer s (msg_sender e) = true ->
   recordExists s Tests.SAMPLE_CERT_ID = true ->
     r = (s, inl (Revert "Certificate ID already exists"))) /\
  (isAuthorizedIssuer s (msg_sender e) = true ->
   recordExists s Tests.SAMPLE_CERT_ID = false ->
   getTotalRecords s < MAX_UINT256 ->
     snd r = inr (tt, [AlumniRecordAdded Tests.SAMPLE_CERT_ID Tests.sample_hash
                         (msg_sender e) (getIssuerName s (msg_sender e))
                         (block_timestamp e) (block_number e)]) /\
     getRecord (fst r) Tests.SAMPLE_CERT_ID =
       (Tests.sample_hash, msg_sender e, getIssuerName s (msg_sender e),
        block_timestamp e, block_number e, true) /\
     (forall e', isAuthorizedIssuer s (msg_sender e') = true ->
        call (Script.testAddRecord e') (fst r) =
        (fst r, inl (Revert "Certificate ID already exists")))) /\
  (forall f, snd r = inl f ->
     f <> Revert "Failed to add record" /\
     f <> Revert "Certificate ID cannot be empty" /\
     f <> Revert "Data hash cannot be empty").
Proof.
  cbv zeta. unfold isAuthorizedIssuer, recordExists, getTotalRecords, getIssuerName.
  assert (Hcall : forall e0 t, call (Script.testAddRecord e0) t =
    if negb (authorizedIssuers_at t (msg_sender e0))
    then (t, inl (Revert "Not an authorized issuer"))
    else if exists_ (records_at t Tests.SAMPLE_CERT_ID)
    then (t, inl (Revert "Certificate ID already exists"))
    else if totalRecords t =? MAX_UINT256 then (t, inl (Panic 0x11))
    else (added e0 t Tests.SAMPLE_CERT_ID Tests.sample_hash,
          inr (tt, [AlumniRecordAdded Tests.SAMPLE_CERT_ID Tests.sample_hash
                      (msg_sender e0) (issuerNames_at t (msg_sender e0))
                      (block_timestamp e0) (block_number e0)]))).
  { intros e0 t. unfold call. rewrite testAddRecord_body, addAlumniRecord_body.
    destruct (authorizedIssuers_at t (msg_sender e0)); cbn [negb]; [|done].
    destruct (exists_ (records_at t Tests.SAMPLE_CERT_ID)); [done|].
    change (0 <? String.length Tests.SAMPLE_CERT_ID)%nat with true. cbn [negb].
    destruct (N.eqb_spec Tests.sample_hash 0) as [Hz|_];
      [by destruct (sample_hash_nonzero Hz)|].
    by destruct (totalRecords t =? MAX_UINT256). }
  rewrite Hcall. split_and!.
  - by intros ->.
  - by intros -> ->.
  - intros -> -> Hroom. cbn [negb].
    destruct (N.eqb_spec (totalRecords s) MAX_UINT256); [lia|]. cbn [fst snd].
    split_and!; [done | |].
    + unfold getRecord. rewrite records_at_added.
      by destruct (decide (Tests.SAMPLE_CERT_ID = Tests.SAMPLE_CERT_ID)).
    + intros e' He'. rewrite Hcall.
      change (authorizedIssuers_at (added e s Tests.SAMPLE_CERT_ID Tests.sample_hash)
                (msg_sender e')) with (authorizedIssuers_at s (msg_sender e')).
      rewrite He', records_at_added.
      by destruct (decide (Tests.SAMPLE_CERT_ID = Tests.SAMPLE_CERT_ID)).
  - intros f.
    destruct (authorizedIssuers_at s (msg_sender e)); cbn [negb snd];
      [|by intros [= <-]].
    destruct (exists_ (records_at s Tests.SAMPLE_CERT_ID)); cbn [snd];
      [by intros [= <-]|].
    destruct (totalRecords s =? MAX_UINT256); cbn [snd]; [by intros [= <-]|done].
Qed.

(** ** The fresh deployment *)

Lemma exec_failed (e : Env) (op : Call) (s : Storage) (f : Failure) :
  snd (exec e op s) = inl f -> exec e op s = (s, inl f).
Proof.
  unfold exec, call. destruct (dispatch e op s); cbn [snd]; [discriminate|].
  by intros [= ->].
Qed.

Lemma authorizedIssuers_at_deploy (e : Env) (name : string) (a : address) :
  authorizedIssuers_at (deploy e name) a = bool_decide (a = msg_sender e).
Proof.
  unfold deploy, call. rewrite constructor_body. cbn [fst].
  unfold authorizedIssuers_at.
  cbn [authorizedIssuers set_issuerName set_authorizedIssuer set_owner empty_storage].
  rewrite lookup_insert. destruct (decide (msg_sender e = a)) as [<-|Hne].
  - by rewrite bool_decide_eq_true_2.
  - rewrite lookup_empty. by rewrite bool_decide_eq_false_2.
Qed.

Lemma issuerNames_at_deploy (e : Env) (name : string) (a : address) :
  issuerNames_at (deploy e name) a =
    if decide (a = msg_sender e) then name else EmptyString.
Proof.
  unfold deploy, call. rewrite constructor_body. cbn [fst].
  unfold issuerNames_at.
  cbn [issuerNames set_issuerName set_authorizedIssuer set_owner empty_storage].
  rewrite lookup_insert.
  destruct (decide (msg_sender e = a)) as [<-|Hne].
  - by rewrite decide_True.
  - rewrite lookup_empty. by rewrite decide_False.
Qed.

Lemma records_at_deploy (e : Env) (name : string) (c : string) :
  records_at (deploy e name) c = zero_record.
Proof.
  unfold deploy, call. rewrite constructor_body. cbn [fst]. unfold records_at.
  cbn [records set_issuerName set_authorizedIssuer set_owner empty_storage].
  by rewrite lookup_empty.
Qed.

(** X15. After deployment the deployer is the owner and the only authorized
    issuer, it alone has a name, the institution's, and the ledger is empty.
    So every call by another address fails and leaves the storage as it is:
    the registry functions and [addAlumniRecord] for want of rights,
    [verifyRecord] for want of a record. *)
Theorem fresh_deployment (e : Env) (name : string) :
  let s := deploy e name in
  owner s = msg_sender e /\
  (forall a, isAuthorizedIssuer s a = true <-> a = msg_sender e) /\
  (forall a, getIssuerName s a = if decide (a = msg_sender e) then name else EmptyString) /\
  (forall c, recordExists s c = false) /\
  getAllCertificateIds s = [] /\ getTotalRecords s = 0 /\
  (forall e' op, msg_sender e' <> msg_sender e ->
     exists f, exec e' op s = (s, inl f)).
Proof.
  cbv zeta. unfold isAuthorizedIssuer, getIssuerName, recordExists.
  split; [reflexivity|]. split.
  { intros a. rewrite authorizedIssuers_at_deploy. apply bool_decide_eq_true. }
  split; [apply issuerNames_at_deploy|].
  split; [intros c; by rewrite records_at_deploy|].
  split; [reflexivity|]. split; [reflexivity|].
  intros e' op He'.
  destruct (snd (exec e' op (deploy e name))) as [f|out] eqn:Hout.
  { exists f. by apply exec_failed. }
  exfalso. destruct op as [i n|i|n|cid h|cid h]; revert Hout.
  - rewrite exec_authorizeIssuer.
    change (owner (deploy e name)) with (msg_sender e).
    by destruct (N.eqb_spec (msg_sender e') (msg_sender e)).
  - rewrite exec_revokeIssuer.
    change (owner (deploy e name)) with (msg_sender e).
    by destruct (N.eqb_spec (msg_sender e') (msg_sender e)).
  - rewrite exec_transferOwnership.
    change (owner (deploy e name)) with (msg_sender e).
    by destruct (N.eqb_spec (msg_sender e') (msg_sender e)).
  - rewrite exec_addAlumniRecord, authorizedIssuers_at_deploy,
      bool_decide_eq_false_2; done.
  - by rewrite exec_verifyRecord, records_at_deploy.
Qed.
